(** * Crafting mini-game (Lab1/src/Crafting.jsx): state model and its transitions

    A shallow embedding of the logic of the single React component
    [App] of [Crafting.jsx]: the catalog, [countItems], [matchRecipe], the
    drag-and-drop handlers, [confirmCraft], [canCraftWithResources],
    [resetGame] and the [usePersistedState] hook.

    JavaScript arrays are lists of [JsVal] read and written by index the way
    JavaScript does it (a read out of range gives [undefined], a write out of
    range extends the array); JavaScript objects used as dictionaries
    ([countItems]'s accumulator, [discovered], [localStorage]) are [gmap]s
    keyed by strings. *)

From stdpp Require Import base decidable option list strings gmap gmultiset.

Open Scope string_scope.
Open Scope list_scope.

(** ** JavaScript values held by a slot *)

Module Js.

(** A cell of [inventory.inv] or of [craftGrid]: [null], an item id, or
    [undefined] (what reading past the end of an array gives). *)
Inductive JsVal : Type :=
| Null
| Undefined
| Str (s : string).

#[global] Instance JsVal_eq_dec : EqDecision JsVal.
Proof. solve_decision. Defined.

(** [Boolean(v)]: [null], [undefined] and the empty string are falsy. *)
Definition Boolean (v : JsVal) : bool :=
  match v with
  | Str s => bool_decide (s ≠ "")
  | Null | Undefined => false
  end.

(** [a[i]] *)
Definition get (a : list JsVal) (i : nat) : JsVal :=
  default Undefined (a !! i).

(** [a[i] = v]: in range the cell is overwritten; out of range the array
    grows, the cells in between reading as [undefined]. *)
Definition set (a : list JsVal) (i : nat) (v : JsVal) : list JsVal :=
  if decide (i < length a) then <[i:=v]> a
  else a ++ replicate (i - length a) Undefined ++ [v].

(** [Array(n).fill(null)] *)
Definition Array_fill_null (n : nat) : list JsVal := replicate n Null.

(** [a.findIndex(p)]; [None] stands for the result [-1]. *)
Fixpoint findIndex (p : JsVal → bool) (a : list JsVal) : option nat :=
  match a with
  | [] => None
  | x :: rest => if p x then Some 0 else S <$> findIndex p rest
  end.

(** [x => x === null] *)
Definition is_null (v : JsVal) : bool :=
  match v with Null => true | _ => false end.

(** [a.filter(Boolean)]. The cells that survive are non-empty strings, so
    the result is given as the list of those strings. *)
Definition filter_Boolean (a : list JsVal) : list string :=
  omap (λ v, match v with
             | Str s => if Boolean v then Some s else None
             | Null | Undefined => None
             end) a.

(** [l.indexOf(x)] on an array of strings; [None] stands for [-1]. *)
Fixpoint indexOf (l : list string) (x : string) : option nat :=
  match l with
  | [] => None
  | y :: rest => if decide (y = x) then Some 0 else S <$> indexOf rest x
  end.

(** [l.splice(idx, 1)] *)
Definition splice1 (l : list string) (idx : nat) : list string :=
  delete idx l.

End Js.

Import Js.

(** ** Catalog *)

Record Resource : Type := mkResource {
  res_id : string;
  res_name : string
}.

Record Recipe : Type := mkRecipe {
  id : string;
  name : string;
  description : string;
  ingredients : list string
}.

#[global] Instance Recipe_eq_dec : EqDecision Recipe.
Proof. solve_decision. Defined.

(** The [emoji] and [image] glyphs of the catalog only matter to rendering
    and are left out. *)
Definition RESOURCES : list Resource :=
  [ mkResource "petal" "Petal";
    mkResource "leaf" "Leaf";
    mkResource "drop" "Dew" ].

Definition flower_bundle : Recipe :=
  mkRecipe "flower_bundle" "Flower Bundle"
           "A small bouquet of petals and leaves."
           ["petal"; "petal"; "leaf"].

Definition sparkling_dew : Recipe :=
  mkRecipe "sparkling_dew" "Sparkling Dew"
           "Potion of shine (final item)."
           ["drop"; "petal"; "leaf"].

Definition RECIPES : list Recipe := [flower_bundle; sparkling_dew].

Definition STORAGE_KEY : string := "crafting_game_v1".

(** ** Counting and recipe matching *)

(** [list.reduce((acc, id) => { acc[id] = (acc[id] || 0) + 1; return acc }, {})].
    The dictionary holds the own properties of the accumulator. The
    accumulator is an object literal, which also inherits the members of
    [Object.prototype]: for an id with the name of such a member
    ("constructor", "__proto__", ...) the first read [acc[id]] finds the
    inherited member and the code does not count. The dictionary is what the
    code builds for lists of other ids, as the ids of the catalog are; the
    statements about [countItems] itself say so. *)
Definition countItems (list : list string) : gmap string nat :=
  foldl (λ acc id, <[id := default 0 (acc !! id) + 1]> acc) ∅ list.

(** [Object.keys(o)]. The two loops over it only ask whether some key is
    lacking, so the order in which the keys come does not matter. *)
Definition Object_keys (o : gmap string nat) : list string :=
  (map_to_list o).*1.

(** The test of the loops of [matchRecipe] and [canCraftWithResources]:
    [!have[k] || have[k] < req[k]]. *)
Definition lacks (have req : gmap string nat) (k : string) : bool :=
  match have !! k with
  | None => true
  | Some h => bool_decide (h = 0) || bool_decide (h < default 0 (req !! k))
  end.

(** [for (let k of Object.keys(req)) if (...) return false] falls through
    exactly when no key is lacking. *)
Definition covers (have req : gmap string nat) : bool :=
  forallb (λ k, negb (lacks have req k)) (Object_keys req).

Definition matchRecipe (gridItems : list JsVal) (recipe : Recipe) : bool :=
  let gridCounts := countItems (filter_Boolean gridItems) in
  let reqCounts := countItems (ingredients recipe) in
  if negb (covers gridCounts reqCounts) then false
  else
    let totalReq := length (ingredients recipe) in
    let totalGrid := length (filter_Boolean gridItems) in
    bool_decide (totalGrid = totalReq).

(** ** Application state *)

(** The persisted object held by [usePersistedState]:
    [{ inv, discovered, finalCrafted }]. *)
Record Inventory : Type := mkInventory {
  inv : list JsVal;
  discovered : gmap string bool;
  finalCrafted : bool
}.

(** The two pieces of React state the handlers read and write. *)
Record AppState : Type := mkApp {
  inventory : Inventory;
  craftGrid : list JsVal
}.

(** [{ ...inventory, inv: newInv }] *)
Definition with_inv (i : Inventory) (newInv : list JsVal) : Inventory :=
  mkInventory newInv (discovered i) (finalCrafted i).

(** [setInventory(x)], [setCraftGrid(x)] *)
Definition setInventory (x : Inventory) (s : AppState) : AppState :=
  mkApp x (craftGrid s).

Definition setCraftGrid (x : list JsVal) (s : AppState) : AppState :=
  mkApp (inventory s) x.

(** The initial value passed to [usePersistedState] and to [useState]. *)
Definition fresh_inventory : Inventory :=
  mkInventory (Array_fill_null 18) ∅ false.

Definition fresh_app : AppState :=
  mkApp fresh_inventory (Array_fill_null 9).

(** The drag payloads built by [onDragStart]:
    [{source: "palette", id}], [{source: "inv", index}],
    [{source: "craft", index}]. *)
Inductive Payload : Type :=
| FromPalette (pid : string)
| FromInv (index : nat)
| FromCraft (index : nat).

(** [RECIPES.find((r) => matchRecipe(craftGrid, r)) || null] *)
Definition possibleRecipe (s : AppState) : option Recipe :=
  List.find (matchRecipe (craftGrid s)) RECIPES.

(** ** Palette, drag-and-drop and delete handlers *)

Definition addResourceToFirstSlot (rid : string) (s : AppState) : AppState :=
  match findIndex is_null (inv (inventory s)) with
  | None => s
  | Some slot =>
      let newInv := set (inv (inventory s)) slot (Str rid) in
      setInventory (with_inv (inventory s) newInv) s
  end.

(** [payload] is [dragData || JSON.parse(...)]; [None] is the [null] for
    which the handler returns at once. *)
Definition onDropToInv (payload : option Payload) (targetIndex : nat)
    (s : AppState) : AppState :=
  match payload with
  | None => s
  | Some p =>
      let newInv := inv (inventory s) in
      match p with
      | FromPalette pid =>
          if decide (get newInv targetIndex ≠ Null) then s
          else
            let newInv := set newInv targetIndex (Str pid) in
            setInventory (with_inv (inventory s) newInv) s
      | FromInv from =>
          let newInv := set newInv targetIndex (get newInv from) in
          let newInv := set newInv from Null in
          setInventory (with_inv (inventory s) newInv) s
      | FromCraft index =>
          if decide (get newInv targetIndex ≠ Null) then s
          else
            let newInv := set newInv targetIndex (get (craftGrid s) index) in
            let newCraft := set (craftGrid s) index Null in
            setCraftGrid newCraft (setInventory (with_inv (inventory s) newInv) s)
      end
  end.

Definition onDropToCraft (payload : option Payload) (targetIndex : nat)
    (s : AppState) : AppState :=
  match payload with
  | None => s
  | Some p =>
      let newCraft := craftGrid s in
      match p with
      | FromPalette pid =>
          if decide (get newCraft targetIndex ≠ Null) then s
          else setCraftGrid (set newCraft targetIndex (Str pid)) s
      | FromInv from =>
          if decide (get newCraft targetIndex ≠ Null) then s
          else
            let newCraft := set newCraft targetIndex (get (inv (inventory s)) from) in
            let newInv := set (inv (inventory s)) from Null in
            setCraftGrid newCraft (setInventory (with_inv (inventory s) newInv) s)
      | FromCraft from =>
          let newCraft := set newCraft targetIndex (get (craftGrid s) from) in
          let newCraft := set newCraft from (get (craftGrid s) targetIndex) in
          setCraftGrid newCraft s
      end
  end.

Definition onDeleteInv (index : nat) (s : AppState) : AppState :=
  let newInv := set (inv (inventory s)) index Null in
  setInventory (with_inv (inventory s) newInv) s.

(** The inline handler of the "Clear Inventory" button. *)
Definition clearGrids (s : AppState) : AppState :=
  setCraftGrid (Array_fill_null 9)
    (setInventory (with_inv (inventory s) (Array_fill_null 18)) s).

(** ** Crafting *)

(** The loop of [confirmCraft] over the copy of the grid: a truthy cell
    whose id is still required is set to [null] and one occurrence of the id
    is spliced out of [req]. *)
Fixpoint consume (req : list string) (cells : list JsVal) : list JsVal :=
  match cells with
  | [] => []
  | c :: rest =>
      match c with
      | Str x =>
          if Boolean c then
            match indexOf req x with
            | Some idx => Null :: consume (splice1 req idx) rest
            | None => c :: consume req rest
            end
          else c :: consume req rest
      | Null | Undefined => c :: consume req rest
      end
  end.

(** What the user is shown by [alert]. *)
Inductive Alert : Type :=
| InventoryFull.   (* "Inventarul este plin. Eliberati un slot." *)

(** [RECIPES[RECIPES.length - 1].id] *)
Definition final_recipe_id : option string :=
  id <$> RECIPES !! (length RECIPES - 1).

(** [confirmCraft] gives the next state and the alert raised, if any.
    [newCraft] and [invCopy] are copies local to the handler: the state only
    changes through the two setters at its end, which the early [return]
    after [alert] does not reach. *)
Definition confirmCraft (s : AppState) : AppState * option Alert :=
  match possibleRecipe s with
  | None => (s, None)
  | Some recipe =>
      let req := ingredients recipe in
      let newCraft := consume req (craftGrid s) in
      let invCopy := inv (inventory s) in
      match findIndex is_null invCopy with
      | None => (s, Some InventoryFull)
      | Some free =>
          let invCopy := set invCopy free (Str (id recipe)) in
          let discovered' := <[id recipe := true]> (discovered (inventory s)) in
          let finalCrafted' :=
            finalCrafted (inventory s)
            || bool_decide (Some (id recipe) = final_recipe_id) in
          (setCraftGrid newCraft
             (setInventory (mkInventory invCopy discovered' finalCrafted') s),
           None)
      end
  end.

(** ** Craftability query *)

Definition canCraftWithResources (s : AppState) : list Recipe :=
  let available := filter_Boolean (inv (inventory s) ++ craftGrid s) in
  let availCounts := countItems available in
  List.filter (λ r, covers availCounts (countItems (ingredients r))) RECIPES.

(** ** Reset and the storage *)

(** [localStorage], a dictionary from keys to stored texts. *)
Record World : Type := mkWorld {
  localStorage : gmap string string;
  app : AppState
}.

(** [confirmed] is what [confirm("Reset game? ...")] returned. *)
Definition resetGame (confirmed : bool) (w : World) : World :=
  if negb confirmed then w
  else
    let store := delete STORAGE_KEY (localStorage w) in
    mkWorld store
      (setCraftGrid (Array_fill_null 9)
         (setInventory (mkInventory (Array_fill_null 18) ∅ false) (app w))).

(** ** The persisted-state hook *)

(** How a JavaScript computation ends: with a value, or by throwing. *)
Inductive Completion (A : Type) : Type :=
| Normal (a : A)
| Throws.
Arguments Normal {A} a.
Arguments Throws {A}.

(** [try { body } catch (e) { handler }] *)
Definition try_catch {A : Type} (body handler : Completion A) : Completion A :=
  match body with
  | Normal a => Normal a
  | Throws => handler
  end.

(** [localStorage.getItem(key)]; [None] is [null]. *)
Definition getItem (store : gmap string string) (key : string) : option string :=
  store !! key.

Section PersistedState.

(** The hook is generic in the state it keeps. [JSON.parse] and
    [JSON.stringify] are the host's; [JSON.parse] throws on a text that is
    not JSON. *)
Context {V : Type}.
Variable JSON_parse : string → Completion V.
Variable JSON_stringify : V → string.

(** The initializer given to [useState]:
    [try { raw = getItem(key); return raw ? JSON.parse(raw) : initial }
     catch (e) { return initial }].
    The empty text is falsy. *)
Definition usePersistedState_init (store : gmap string string)
    (key : string) (initial : V) : Completion V :=
  try_catch
    (match getItem store key with
     | Some raw => if bool_decide (raw ≠ "") then JSON_parse raw
                   else Normal initial
     | None => Normal initial
     end)
    (Normal initial).

(** The effect run after a render in which [key] or [state] changed:
    [localStorage.setItem(key, JSON.stringify(state))]. *)
Definition usePersistedState_effect (key : string) (state : V)
    (store : gmap string string) : gmap string string :=
  <[key := JSON_stringify state]> store.

End PersistedState.

(** ** User actions *)

(** One constructor per handler wired in the JSX. *)
Inductive Action : Type :=
| ClickPalette (rid : string)
| DropToInv (payload : option Payload) (targetIndex : nat)
| DropToCraft (payload : option Payload) (targetIndex : nat)
| DeleteInv (index : nat)
| ConfirmCraft
| ClearInventory
| ResetGame (confirmed : bool).

Definition on_app (f : AppState → AppState) (w : World) : World :=
  mkWorld (localStorage w) (f (app w)).

Definition step (a : Action) (w : World) : World :=
  match a with
  | ClickPalette rid => on_app (addResourceToFirstSlot rid) w
  | DropToInv payload targetIndex => on_app (onDropToInv payload targetIndex) w
  | DropToCraft payload targetIndex => on_app (onDropToCraft payload targetIndex) w
  | DeleteInv index => on_app (onDeleteInv index) w
  | ConfirmCraft => on_app (λ s, (confirmCraft s).1) w
  | ClearInventory => on_app clearGrids w
  | ResetGame confirmed => resetGame confirmed w
  end.

Definition run (actions : list Action) (w : World) : World :=
  foldl (λ w a, step a w) w actions.

(** ** Vocabulary of the statements *)

(** A well-formed slot is empty ([null]) or holds a non-empty item id. *)
Definition slot_ok (v : JsVal) : Prop :=
  match v with
  | Null => True
  | Undefined => False
  | Str x => x ≠ ""
  end.

#[global] Instance slot_ok_dec v : Decision (slot_ok v).
Proof. destruct v; simpl; apply _. Defined.

(** The ids held by the non-null cells of an array of slots. *)
Definition items (a : list JsVal) : list string :=
  omap (λ v, match v with Str x => Some x | Null | Undefined => None end) a.

(** The multiset of a list of ids. *)
Definition bag (l : list string) : gmultiset string := list_to_set_disj l.

(** Every slot of an array is occupied: none is [null]. *)
Definition all_occupied (a : list JsVal) : Prop := Null ∉ a.

(** [m] is the dictionary of the multiplicities of [X]: a key is present
    exactly when its id occurs, with the number of occurrences. *)
Definition counts_of (X : gmultiset string) (m : gmap string nat) : Prop :=
  ∀ k, m !! k = if decide (multiplicity k X = 0) then None
                else Some (multiplicity k X).

(** ** States used in the examples *)

(** A grid holding exactly the ingredients of [flower_bundle]. *)
Definition grid_flower : list JsVal :=
  [Str "petal"; Str "petal"; Str "leaf"; Null; Null; Null; Null; Null; Null].

(** A state whose resources suffice for both recipes while the grid, holding
    four items, matches neither. *)
Definition app_surplus : AppState :=
  mkApp fresh_inventory
        [Str "petal"; Str "petal"; Str "leaf"; Str "drop"; Null; Null; Null; Null; Null].

(** All 18 inventory slots hold an item and the grid holds exactly the
    ingredients of [flower_bundle]. *)
Definition app_full : AppState :=
  mkApp (mkInventory (replicate 18 (Str "petal")) ∅ false) grid_flower.

(** The grid holds the ingredients of [flower_bundle], the inventory is
    empty. *)
Definition app_flower : AppState := mkApp fresh_inventory grid_flower.

(** [inventory.finalCrafted] of a world. *)
Definition fc (w : World) : bool := finalCrafted (inventory (app w)).

(** The grid holds the ingredients of the last recipe, [sparkling_dew]. *)
Definition world_dew : World :=
  mkWorld ∅
    (mkApp fresh_inventory
       [Str "drop"; Str "petal"; Str "leaf"; Null; Null; Null; Null; Null; Null]).

(** [JSON.parse] restricted to the texts of the two booleans. *)
Definition JSON_parse_bool (raw : string) : Completion bool :=
  if decide (raw = "true") then Normal true
  else if decide (raw = "false") then Normal false
  else Throws.

(** Slot 0 holds a petal and slot 1 a leaf. *)
Definition app_two : AppState :=
  mkApp (mkInventory (Str "petal" :: Str "leaf" :: replicate 16 Null) ∅ false)
        (Array_fill_null 9).

(** Grid slot 0 holds a petal and grid slot 1 a leaf. *)
Definition app_craft_two : AppState :=
  mkApp fresh_inventory
        [Str "petal"; Str "leaf"; Null; Null; Null; Null; Null; Null; Null].

(** ** Rendering *)

(** What [renderItem(id)] draws: the glyph and name of a resource, or the
    image and name of a recipe. The catalog entry stands for the element
    built from it. *)
Inductive Rendered : Type :=
| RenderedResource (res : Resource)
| RenderedRecipe (rec : Recipe).

(** [RESOURCES.find((r) => r.id === id)] is tried first, then
    [RECIPES.find((r) => r.id === id)]; [None] is the [null] returned when
    neither finds an entry. *)
Definition renderItem (x : string) : option Rendered :=
  match List.find (λ r, bool_decide (res_id r = x)) RESOURCES with
  | Some res => Some (RenderedResource res)
  | None =>
      match List.find (λ r, bool_decide (id r = x)) RECIPES with
      | Some rec => Some (RenderedRecipe rec)
      | None => None
      end
  end.

(** ** Vocabulary of the further statements *)

(** The id held by a cell, if any. *)
Definition held (v : JsVal) : list string :=
  match v with Str x => [x] | Null | Undefined => [] end.

(** The id a cell contributes to [filter(Boolean)], if any. *)
Definition held_truthy (v : JsVal) : list string :=
  match v with
  | Str x => if Boolean v then [x] else []
  | Null | Undefined => []
  end.

(** The multiset of all the items of a state, inventory and grid together. *)
Definition all_items (s : AppState) : gmultiset string :=
  bag (items (inv (inventory s))) ⊎ bag (items (craftGrid s)).

(** The property names of [Object.prototype], which every object literal
    inherits. *)
Definition Object_prototype_names : list string :=
  [ "constructor"; "__defineGetter__"; "__defineSetter__"; "hasOwnProperty";
    "__lookupGetter__"; "__lookupSetter__"; "isPrototypeOf";
    "propertyIsEnumerable"; "toString"; "valueOf"; "__proto__";
    "toLocaleString" ].

(** An id that names no inherited member: reading it from a fresh object
    literal gives [undefined]. *)
Definition plain_id (x : string) : Prop := x ∉ Object_prototype_names.

(** The number of occurrences of [k] in [l]. *)
Definition occurrences (k : string) (l : list string) : nat :=
  length (filter (λ y, y = k) l).

(** The ids of the catalog. *)
Definition resource_ids : list string := res_id <$> RESOURCES.
Definition recipe_ids : list string := id <$> RECIPES.

(** A slot as the interface builds them: [null], or the id of a resource or
    of a recipe. *)
Definition catalog_slot (v : JsVal) : Prop :=
  match v with
  | Null => True
  | Undefined => False
  | Str x => x ∈ resource_ids ∨ x ∈ recipe_ids
  end.

(** The shape of the state the interface starts from and maintains. *)
Definition well_formed (s : AppState) : Prop :=
  length (inv (inventory s)) = 18
  ∧ length (craftGrid s) = 9
  ∧ Forall catalog_slot (inv (inventory s))
  ∧ Forall catalog_slot (craftGrid s).

(** The payloads and actions the JSX can dispatch on a well-formed state:
    palette entries carry the id of a resource, slots carry their own index
    in the grid they are drawn in. *)
Definition ui_payload (p : option Payload) : Prop :=
  match p with
  | None => True
  | Some (FromPalette pid) => pid ∈ resource_ids
  | Some (FromInv index) => index < 18
  | Some (FromCraft index) => index < 9
  end.

Definition ui_action (a : Action) : Prop :=
  match a with
  | ClickPalette rid => rid ∈ resource_ids
  | DropToInv payload targetIndex => ui_payload payload ∧ targetIndex < 18
  | DropToCraft payload targetIndex => ui_payload payload ∧ targetIndex < 9
  | DeleteInv index => index < 18
  | ConfirmCraft | ClearInventory | ResetGame _ => True
  end.

(** Progress invariants of the persisted object: only recipes of the catalog
    are discovered, each recorded as [true], and the final flag is set only
    once the last recipe is discovered. *)
Definition progress_ok (i : Inventory) : Prop :=
  (∀ k b, discovered i !! k = Some b → b = true ∧ k ∈ recipe_ids)
  ∧ (finalCrafted i = true →
     ∃ k, final_recipe_id = Some k ∧ discovered i !! k = Some true).

(** [JSON.stringify] and [JSON.parse] restricted to the booleans. *)
Definition JSON_stringify_bool (b : bool) : string :=
  if b then "true" else "false".

(** A stand-in for the host's JSON on the persisted object, enough to load
    back a saved fresh state: one text for the fresh state, no other text
    parses. *)
Definition fresh_text : string := "fresh".

Definition stringify_fresh (i : Inventory) : string := fresh_text.

Definition parse_fresh (raw : string) : Completion Inventory :=
  if decide (raw = fresh_text) then Normal fresh_inventory else Throws.

(** ** Reading and writing arrays *)

Section Arrays.

Implicit Types (a : list JsVal) (i j : nat) (v : JsVal).

Lemma get_set_eq a i v : get (set a i v) i = v.
Proof.
  unfold get, set. case_decide as Hi.
  - by rewrite list_lookup_insert_eq.
  - rewrite lookup_app_r by lia.
    rewrite lookup_app_r; rewrite length_replicate; [|lia].
    by replace (i - length a - (i - length a)) with 0 by lia.
Qed.

Lemma get_set_ne a i j v : i ≠ j → get (set a i v) j = get a j.
Proof.
  intros Hij. unfold get, set. case_decide as Hi.
  - by rewrite list_lookup_insert_ne.
  - destruct (decide (j < length a)) as [Hj|Hj].
    + by rewrite lookup_app_l.
    + rewrite (lookup_ge_None_2 a j) by lia.
      rewrite lookup_app_r by lia.
      destruct (decide (j < i)) as [Hlt|Hge].
      * rewrite lookup_app_l by (rewrite length_replicate; lia).
        rewrite lookup_replicate_2; [done | lia].
      * rewrite lookup_app_r by (rewrite length_replicate; lia).
        rewrite length_replicate.
        rewrite lookup_ge_None_2; [done | simpl; lia].
Qed.

Lemma findIndex_None a : findIndex is_null a = None ↔ Null ∉ a.
Proof.
  induction a as [|x a IH]; simpl.
  - split; [intros _; apply not_elem_of_nil | done].
  - rewrite not_elem_of_cons. destruct x; simpl.
    + split; [done | intros [? _]; done].
    + rewrite fmap_None, IH. split; [by intros | by intros [_ ?]].
    + rewrite fmap_None, IH. split; [by intros | by intros [_ ?]].
Qed.

Lemma findIndex_Some a i :
  findIndex is_null a = Some i → get a i = Null ∧ i < length a.
Proof.
  revert i. induction a as [|x a IH]; intros i; simpl; [done|].
  destruct (is_null x) eqn:Hx.
  - intros [= <-]. destruct x; try done. split; [done | simpl; lia].
  - destruct (findIndex is_null a) as [k|]; simpl; [|done].
    intros [= <-]. destruct (IH k eq_refl) as [? ?].
    split; [done | simpl; lia].
Qed.

Lemma filter_Boolean_items a : Forall slot_ok a → filter_Boolean a = items a.
Proof.
  induction 1 as [|x a Hx _ IH]; [done|].
  destruct x; simpl in Hx; try done.
  unfold filter_Boolean, items in *. cbn.
  rewrite bool_decide_eq_true_2 by done. cbn. by f_equal.
Qed.

End Arrays.

(** ** Counting *)

Section Counting.

Implicit Types (l : list string) (k : string) (X Y : gmultiset string)
  (m : gmap string nat).

Lemma counts_of_step X m x :
  counts_of X m →
  counts_of (X ⊎ {[+ x +]}) (<[x := default 0 (m !! x) + 1]> m).
Proof.
  intros HX k. rewrite multiplicity_disj_union.
  destruct (decide (x = k)) as [->|Hne].
  - rewrite lookup_insert_eq, multiplicity_singleton_eq.
    rewrite decide_False by lia. rewrite (HX k).
    case_decide as H0; simpl; f_equal; lia.
  - rewrite lookup_insert_ne by done.
    rewrite multiplicity_singleton_ne by done.
    rewrite Nat.add_0_r. apply HX.
Qed.

Lemma counts_of_foldl l X m :
  counts_of X m →
  counts_of (X ⊎ bag l)
    (foldl (λ acc id, <[id := default 0 (acc !! id) + 1]> acc) m l).
Proof.
  revert X m. induction l as [|x l IH]; intros X m HX; simpl.
  - unfold bag. rewrite list_to_set_disj_nil. by rewrite (right_id_L ∅ (⊎)).
  - unfold bag. rewrite list_to_set_disj_cons.
    rewrite (assoc_L (⊎)). apply IH. by apply counts_of_step.
Qed.

Lemma countItems_counts l : counts_of (bag l) (countItems l).
Proof.
  unfold countItems.
  rewrite <- (left_id_L ∅ (⊎) (bag l)).
  apply counts_of_foldl. intros k.
  by rewrite lookup_empty, multiplicity_empty.
Qed.

Lemma elem_of_Object_keys m k : k ∈ Object_keys m ↔ is_Some (m !! k).
Proof.
  unfold Object_keys. rewrite list_elem_of_fmap. split.
  - intros [[k' n] [-> Hin]]. apply elem_of_map_to_list in Hin. by exists n.
  - intros [n Hn]. exists (k, n). split; [done|].
    by apply elem_of_map_to_list.
Qed.

Lemma covers_subseteq X Y mX mY :
  counts_of X mX → counts_of Y mY →
  covers mX mY = true ↔ Y ⊆ X.
Proof.
  intros HX HY. unfold covers.
  rewrite forallb_forall. split.
  - intros Hall k. destruct (decide (multiplicity k Y = 0)) as [->|Hk]; [lia|].
    assert (k ∈ Object_keys mY) as Hin.
    { apply elem_of_Object_keys. rewrite (HY k), decide_False by done. eauto. }
    apply list_elem_of_In in Hin. specialize (Hall k Hin).
    unfold lacks in Hall. rewrite (HX k), (HY k) in Hall.
    rewrite (decide_False (P := multiplicity k Y = 0)) in Hall by done.
    case_decide as HkX; simpl in Hall; [done|].
    apply negb_true_iff, orb_false_elim in Hall as [_ Hlt].
    apply bool_decide_eq_false in Hlt. lia.
  - intros Hsub k Hin. apply list_elem_of_In, elem_of_Object_keys in Hin.
    rewrite (HY k) in Hin. case_decide as Hk; [by destruct Hin|].
    specialize (Hsub k).
    unfold lacks. rewrite (HX k), (HY k).
    rewrite decide_False by lia. rewrite decide_False by done. simpl.
    apply negb_true_iff, orb_false_intro.
    + apply bool_decide_eq_false. lia.
    + apply bool_decide_eq_false. lia.
Qed.

Lemma size_bag l : size (bag l) = length l.
Proof.
  induction l as [|x l IH]; unfold bag in *.
  - by rewrite list_to_set_disj_nil, gmultiset_size_empty.
  - by rewrite list_to_set_disj_cons, gmultiset_size_disj_union,
      gmultiset_size_singleton, IH.
Qed.

Lemma subseteq_size_eq X Y : Y ⊆ X → size X = size Y → X = Y.
Proof.
  intros Hsub Hsize.
  rewrite (gmultiset_disj_union_difference Y X Hsub).
  assert (X ∖ Y = ∅) as ->.
  { apply gmultiset_size_empty_inv.
    rewrite gmultiset_size_difference by done. lia. }
  by rewrite (right_id_L ∅ (⊎)).
Qed.

(** [matchRecipe] on the truthy cells: inclusion of the requirements plus
    equal totals is equality of the two multisets. *)
Lemma matchRecipe_bag (G : list JsVal) (R : Recipe) :
  matchRecipe G R = true ↔ bag (filter_Boolean G) = bag (ingredients R).
Proof.
  unfold matchRecipe.
  pose proof (covers_subseteq _ _ _ _ (countItems_counts (filter_Boolean G))
                (countItems_counts (ingredients R))) as Hcov.
  destruct (covers _ _) eqn:Hc; simpl.
  - apply proj1 in Hcov. specialize (Hcov eq_refl).
    rewrite bool_decide_eq_true. rewrite <- !size_bag. split.
    + intros Hs. by apply subseteq_size_eq.
    + by intros ->.
  - split; [done|]. intros Heq.
    rewrite Heq in Hcov. apply proj2 in Hcov.
    specialize (Hcov (reflexivity _)). done.
Qed.

End Counting.

(** ** Recipe matching is exact multiset equality *)

(** C3. For every grid [G] of well-formed slots and every recipe [R],
    [matchRecipe G R] is true if and only if the multiset of the non-null
    entries of [G] equals the multiset [R.ingredients]; in particular a grid
    holding all the ingredients plus one extra item does not match. *)
Theorem matchRecipe_exact_multiset (G : list JsVal) (R : Recipe) :
  Forall slot_ok G →
  (matchRecipe G R = true ↔ bag (items G) = bag (ingredients R))
  ∧ (∀ extra, bag (items G) = bag (extra :: ingredients R) →
              matchRecipe G R = false).
Proof.
  intros HG. rewrite <- (filter_Boolean_items G HG). split.
  - apply matchRecipe_bag.
  - intros extra Hextra.
    destruct (matchRecipe G R) eqn:Hm; [|done].
    apply matchRecipe_bag in Hm. rewrite Hm in Hextra.
    apply (f_equal size) in Hextra. rewrite !size_bag in Hextra.
    simpl in Hextra. lia.
Qed.

Lemma matchRecipe_exact_multiset_witness :
  Forall slot_ok grid_flower
  ∧ ((matchRecipe grid_flower flower_bundle = true
      ↔ bag (items grid_flower) = bag (ingredients flower_bundle))
     ∧ (∀ extra, bag (items grid_flower) = bag (extra :: ingredients flower_bundle) →
                 matchRecipe grid_flower flower_bundle = false)).
Proof.
  split.
  - unfold grid_flower. repeat constructor; simpl; done.
  - apply (matchRecipe_exact_multiset grid_flower flower_bundle).
    unfold grid_flower. repeat constructor; simpl; done.
Defined.

(** ** Craftability is multiset inclusion *)

Lemma items_app (a b : list JsVal) : items (a ++ b) = items a ++ items b.
Proof. unfold items. apply omap_app. Qed.

Lemma bag_app (l1 l2 : list string) : bag (l1 ++ l2) = bag l1 ⊎ bag l2.
Proof. unfold bag. apply list_to_set_disj_app. Qed.

(** C7. [canCraftWithResources] returns exactly the catalog recipes (in
    catalog order) whose ingredient multiset is included, with
    multiplicities, in the multiset of the items of all non-empty inventory
    and crafting-grid slots; it does not ask for exact occupancy, unlike the
    preview. *)
Theorem canCraftWithResources_subset (s : AppState) :
  Forall slot_ok (inv (inventory s)) →
  Forall slot_ok (craftGrid s) →
  canCraftWithResources s
  = List.filter
      (λ r, bool_decide (bag (ingredients r)
                         ⊆ bag (items (inv (inventory s))) ⊎ bag (items (craftGrid s))))
      RECIPES
  ∧ (canCraftWithResources app_surplus = RECIPES ∧ possibleRecipe app_surplus = None).
Proof.
  intros Hinv Hgrid. split; [|by vm_compute].
  unfold canCraftWithResources. apply List.filter_ext. intros r.
  rewrite filter_Boolean_items by (by apply Forall_app).
  rewrite items_app.
  pose proof (covers_subseteq _ _ _ _
                (countItems_counts (items (inv (inventory s)) ++ items (craftGrid s)))
                (countItems_counts (ingredients r))) as Hcov.
  rewrite bag_app in Hcov.
  destruct (covers _ _); symmetry.
  - apply bool_decide_eq_true. by apply Hcov.
  - apply bool_decide_eq_false. intros Hsub. apply Hcov in Hsub. done.
Qed.

Lemma canCraftWithResources_subset_witness :
  Forall slot_ok (inv (inventory app_surplus))
  ∧ Forall slot_ok (craftGrid app_surplus)
  ∧ canCraftWithResources app_surplus
    = List.filter
        (λ r, bool_decide (bag (ingredients r)
                           ⊆ bag (items (inv (inventory app_surplus)))
                             ⊎ bag (items (craftGrid app_surplus))))
        RECIPES.
Proof.
  assert (Forall slot_ok (inv (inventory app_surplus))) as Hinv.
  { apply (Forall_replicate slot_ok 18 Null). exact I. }
  assert (Forall slot_ok (craftGrid app_surplus)) as Hgrid.
  { unfold app_surplus. simpl. repeat constructor; simpl; done. }
  split; [exact Hinv|]. split; [exact Hgrid|].
  exact (proj1 (canCraftWithResources_subset app_surplus Hinv Hgrid)).
Defined.

(** ** Confirming a craft *)

Lemma app_full_occupied : all_occupied (inv (inventory app_full)).
Proof. apply findIndex_None. vm_compute. reflexivity. Qed.

(** C1, as stated, fails: with a matching grid and a full inventory the
    grid is not cleared and the recipe is not recorded in [discovered]. *)
Lemma confirmCraft_full_not_partial :
  ¬ (possibleRecipe app_full = Some flower_bundle →
     all_occupied (inv (inventory app_full)) →
     (confirmCraft app_full).2 = Some InventoryFull
     ∧ craftGrid (confirmCraft app_full).1 = Array_fill_null 9
     ∧ inv (inventory (confirmCraft app_full).1) = inv (inventory app_full)
     ∧ discovered (inventory (confirmCraft app_full).1) !! id flower_bundle
       = Some true).
Proof.
  intros Hclaim.
  destruct (Hclaim ltac:(vm_compute; reflexivity) app_full_occupied)
    as (_ & Hgrid & _ & _).
  vm_compute in Hgrid. discriminate Hgrid.
Qed.

(** C1, amended. When a recipe matches the grid and every inventory slot is
    occupied, [confirmCraft] raises the full-inventory alert and leaves the
    whole state as it was: the grid keeps the ingredients, no item is added,
    [discovered] and [finalCrafted] are untouched. *)
Theorem confirmCraft_full_unchanged (s : AppState) (R : Recipe) :
  possibleRecipe s = Some R →
  all_occupied (inv (inventory s)) →
  confirmCraft s = (s, Some InventoryFull).
Proof.
  intros HR Hfull. unfold confirmCraft. rewrite HR.
  apply findIndex_None in Hfull. by rewrite Hfull.
Qed.

Lemma confirmCraft_full_unchanged_witness :
  possibleRecipe app_full = Some flower_bundle
  ∧ all_occupied (inv (inventory app_full))
  ∧ confirmCraft app_full = (app_full, Some InventoryFull).
Proof.
  assert (possibleRecipe app_full = Some flower_bundle) as HR
    by (vm_compute; reflexivity).
  assert (all_occupied (inv (inventory app_full))) as Hfull.
  { apply findIndex_None. vm_compute. reflexivity. }
  split; [exact HR|]. split; [exact Hfull|].
  exact (confirmCraft_full_unchanged app_full flower_bundle HR Hfull).
Defined.

(** The success path: the first [null] inventory slot receives the recipe's
    id, the grid becomes the consumed copy, and no alert is raised. *)
Lemma confirmCraft_success (s : AppState) (R : Recipe) (free : nat) :
  possibleRecipe s = Some R →
  findIndex is_null (inv (inventory s)) = Some free →
  (confirmCraft s).2 = None
  ∧ get (inv (inventory s)) free = Null
  ∧ get (inv (inventory (confirmCraft s).1)) free = Str (id R)
  ∧ craftGrid (confirmCraft s).1 = consume (ingredients R) (craftGrid s).
Proof.
  intros HR Hfree. unfold confirmCraft. rewrite HR, Hfree. simpl.
  destruct (findIndex_Some _ _ Hfree) as [Hnull _].
  repeat split; [done|]. apply get_set_eq.
Qed.

(** C6. After a successful craft of [R] (a recipe matched and a free slot
    existed) [discovered] maps [R.id] to [true] and keeps every other entry;
    crafting [R] again in any state where it is already discovered leaves
    [discovered] as it is. *)
Theorem confirmCraft_discovered (s : AppState) (R : Recipe) (free : nat) :
  possibleRecipe s = Some R →
  findIndex is_null (inv (inventory s)) = Some free →
  discovered (inventory (confirmCraft s).1) !! id R = Some true
  ∧ (∀ k, k ≠ id R →
          discovered (inventory (confirmCraft s).1) !! k
          = discovered (inventory s) !! k)
  ∧ (∀ t free',
       possibleRecipe t = Some R →
       findIndex is_null (inv (inventory t)) = Some free' →
       discovered (inventory t) !! id R = Some true →
       discovered (inventory (confirmCraft t).1) = discovered (inventory t)).
Proof.
  intros HR Hfree. unfold confirmCraft. rewrite HR, Hfree. simpl.
  split; [apply lookup_insert_eq|]. split.
  - intros k Hk. by rewrite lookup_insert_ne.
  - intros t free' HRt Hfreet Hdisc. rewrite HRt, Hfreet. simpl.
    by apply insert_id.
Qed.

Lemma confirmCraft_discovered_witness :
  possibleRecipe app_flower = Some flower_bundle
  ∧ findIndex is_null (inv (inventory app_flower)) = Some 0
  ∧ discovered (inventory (confirmCraft app_flower).1) !! id flower_bundle
    = Some true.
Proof.
  assert (possibleRecipe app_flower = Some flower_bundle) as HR
    by (vm_compute; reflexivity).
  assert (findIndex is_null (inv (inventory app_flower)) = Some 0) as Hfree
    by (vm_compute; reflexivity).
  split; [exact HR|]. split; [exact Hfree|].
  exact (proj1 (confirmCraft_discovered app_flower flower_bundle 0 HR Hfree)).
Defined.

(** ** The final-craft flag *)

(** The handlers that rebuild the inventory as [{ ...inventory, inv }] keep
    the flag. *)
Lemma handlers_keep_finalCrafted (s : AppState) :
  (∀ rid, finalCrafted (inventory (addResourceToFirstSlot rid s))
          = finalCrafted (inventory s))
  ∧ (∀ p t, finalCrafted (inventory (onDropToInv p t s))
            = finalCrafted (inventory s))
  ∧ (∀ p t, finalCrafted (inventory (onDropToCraft p t s))
            = finalCrafted (inventory s))
  ∧ (∀ i, finalCrafted (inventory (onDeleteInv i s))
          = finalCrafted (inventory s))
  ∧ finalCrafted (inventory (clearGrids s)) = finalCrafted (inventory s).
Proof.
  repeat split.
  - intros rid. unfold addResourceToFirstSlot.
    by destruct (findIndex _ _).
  - intros [[pid|from|index]|] t; simpl; [| done | | done];
      by case_decide.
  - intros [[pid|from|index]|] t; simpl; [| | done | done];
      by case_decide.
Qed.

Lemma confirmCraft_finalCrafted (s : AppState) :
  finalCrafted (inventory (confirmCraft s).1)
  = finalCrafted (inventory s)
    || match possibleRecipe s, findIndex is_null (inv (inventory s)) with
       | Some R, Some _ => bool_decide (Some (id R) = final_recipe_id)
       | _, _ => false
       end.
Proof.
  unfold confirmCraft.
  destruct (possibleRecipe s) as [R|]; simpl; [|by rewrite orb_false_r].
  destruct (findIndex _ _); simpl; [done | by rewrite orb_false_r].
Qed.

Lemma possibleRecipe_final (s : AppState) (R : Recipe) :
  possibleRecipe s = Some R →
  Some (id R) = final_recipe_id →
  RECIPES !! (length RECIPES - 1) = Some R.
Proof.
  intros HR Hid. unfold possibleRecipe in HR.
  apply List.find_some in HR as [Hin _].
  simpl in Hin. destruct Hin as [<-|[<-|[]]]; [|done].
  vm_compute in Hid. discriminate Hid.
Qed.

(** C5. Under every action other than a confirmed reset, [finalCrafted]
    stays true once true, and it goes from false to true only by a craft
    that took place (a recipe matched, a free slot received its id, no alert
    was raised) of the catalog's last recipe; such a craft does set it; the
    flag stays true along any sequence of such actions; a confirmed reset
    sets it to false. *)
Theorem finalCrafted_one_way (a : Action) (w : World) :
  a ≠ ResetGame true →
  (fc w = true → fc (step a w) = true)
  ∧ (fc w = false → fc (step a w) = true →
     a = ConfirmCraft
     ∧ ∃ R free,
         possibleRecipe (app w) = Some R
         ∧ RECIPES !! (length RECIPES - 1) = Some R
         ∧ findIndex is_null (inv (inventory (app w))) = Some free
         ∧ (confirmCraft (app w)).2 = None
         ∧ get (inv (inventory (app (step a w)))) free = Str (id R)
         ∧ discovered (inventory (app (step a w))) !! id R = Some true)
  ∧ (∀ actions, Forall (λ b, b ≠ ResetGame true) actions →
                fc w = true → fc (run actions w) = true)
  ∧ fc (step (ResetGame true) w) = false
  ∧ (∀ R free,
       possibleRecipe (app w) = Some R →
       findIndex is_null (inv (inventory (app w))) = Some free →
       RECIPES !! (length RECIPES - 1) = Some R →
       fc (step ConfirmCraft w) = true).
Proof.
  intros Ha.
  assert (∀ b v, b ≠ ResetGame true → fc v = true → fc (step b v) = true)
    as Hkeep.
  { intros b v Hb Hv. unfold fc in *.
    destruct (handlers_keep_finalCrafted (app v)) as (H1 & H2 & H3 & H4 & H5).
    destruct b as [rid|p t|p t|i| | |[|]]; simpl;
      rewrite ?H1, ?H2, ?H3, ?H4, ?H5; try done.
    rewrite confirmCraft_finalCrafted, Hv. done. }
  split; [by apply Hkeep|]. split; [|split; [|split]].
  - intros Hw Hw'. unfold fc in *.
    destruct (handlers_keep_finalCrafted (app w)) as (H1 & H2 & H3 & H4 & H5).
    destruct a as [rid|p t|p t|i| | |[|]];
      unfold step, on_app, resetGame in *; cbn [app negb] in *;
      rewrite ?H1, ?H2, ?H3, ?H4, ?H5 in Hw'; try congruence.
    split; [reflexivity|].
    rewrite confirmCraft_finalCrafted, Hw in Hw'. cbn [orb] in Hw'.
    destruct (possibleRecipe (app w)) as [R|] eqn:HR; [|discriminate Hw'].
    destruct (findIndex is_null (inv (inventory (app w)))) as [free|] eqn:Hfree;
      [|discriminate Hw'].
    apply bool_decide_eq_true in Hw'.
    destruct (confirmCraft_success (app w) R free HR Hfree)
      as (Halert & _ & Hplaced & _).
    exists R, free.
    split; [reflexivity|].
    split; [by eapply possibleRecipe_final|].
    split; [reflexivity|].
    split; [exact Halert|].
    split; [exact Hplaced|].
    unfold confirmCraft. rewrite HR, Hfree. cbn [fst inventory discovered
      setCraftGrid setInventory]. apply lookup_insert_eq.
  - intros actions. revert w. induction actions as [|b actions IH];
      intros w Hall Hw; [exact Hw|].
    inversion Hall as [|? ? Hb Hrest]; subst. simpl.
    apply IH; [exact Hrest|]. by apply Hkeep.
  - reflexivity.
  - intros R free HR Hfree Hlast. unfold fc, step, on_app. cbn [app].
    rewrite confirmCraft_finalCrafted, HR, Hfree.
    unfold final_recipe_id. rewrite Hlast. cbn [fmap option_fmap option_map].
    rewrite bool_decide_eq_true_2 by reflexivity. apply orb_true_r.
Qed.

Lemma finalCrafted_one_way_witness :
  ConfirmCraft ≠ ResetGame true
  ∧ fc world_dew = false
  ∧ fc (step ConfirmCraft world_dew) = true
  ∧ ∃ R free,
      possibleRecipe (app world_dew) = Some R
      ∧ RECIPES !! (length RECIPES - 1) = Some R
      ∧ findIndex is_null (inv (inventory (app world_dew))) = Some free
      ∧ (confirmCraft (app world_dew)).2 = None
      ∧ get (inv (inventory (app (step ConfirmCraft world_dew)))) free
        = Str (id R)
      ∧ discovered (inventory (app (step ConfirmCraft world_dew))) !! id R
        = Some true.
Proof.
  assert (ConfirmCraft ≠ ResetGame true) as Hne by discriminate.
  split; [exact Hne|].
  split; [reflexivity|].
  split; [vm_compute; reflexivity|].
  exact (proj2 (proj1 (proj2 (finalCrafted_one_way ConfirmCraft world_dew Hne))
                  eq_refl ltac:(vm_compute; reflexivity))).
Defined.

(** ** Reset *)

(** C8. A confirmed reset gives the fresh state: 18 [null] inventory slots,
    9 [null] grid slots, an empty [discovered], [finalCrafted] false, and the
    entry under [STORAGE_KEY] removed from the storage (other keys are
    kept); a declined reset changes nothing. *)
Theorem resetGame_fresh (w : World) :
  app (resetGame true w) = fresh_app
  ∧ inv (inventory (app (resetGame true w))) = replicate 18 Null
  ∧ craftGrid (app (resetGame true w)) = replicate 9 Null
  ∧ discovered (inventory (app (resetGame true w))) = ∅
  ∧ finalCrafted (inventory (app (resetGame true w))) = false
  ∧ getItem (localStorage (resetGame true w)) STORAGE_KEY = None
  ∧ (∀ k, k ≠ STORAGE_KEY →
          getItem (localStorage (resetGame true w)) k = getItem (localStorage w) k)
  ∧ resetGame false w = w.
Proof.
  unfold resetGame, getItem. simpl. repeat split.
  - apply lookup_delete_eq.
  - intros k Hk. by apply lookup_delete_ne.
Qed.

(** The write that follows: the reset state is a new object, so the effect
    of [usePersistedState] then stores its serialization under the key. *)
Lemma resetGame_then_effect (stringify : Inventory → string) (w : World) :
  getItem
    (usePersistedState_effect stringify STORAGE_KEY
       (inventory (app (resetGame true w)))
       (localStorage (resetGame true w)))
    STORAGE_KEY
  = Some (stringify fresh_inventory).
Proof. unfold usePersistedState_effect, getItem. apply lookup_insert_eq. Qed.

(** ** Loading the persisted state *)

(** C9. The initializer of [usePersistedState] never throws: a stored text
    that parses gives the parsed value, a missing entry gives the initial
    state, and a stored text on which [JSON.parse] throws gives the initial
    state. ([JSON.parse] throws on the empty text.) *)
Theorem usePersistedState_init_total {V : Type}
    (JSON_parse : string → Completion V)
    (store : gmap string string) (key : string) (initial : V) :
  JSON_parse "" = Throws →
  (∃ v, usePersistedState_init JSON_parse store key initial = Normal v)
  ∧ (∀ raw v, getItem store key = Some raw → JSON_parse raw = Normal v →
              usePersistedState_init JSON_parse store key initial = Normal v)
  ∧ (getItem store key = None →
     usePersistedState_init JSON_parse store key initial = Normal initial)
  ∧ (∀ raw, getItem store key = Some raw → JSON_parse raw = Throws →
            usePersistedState_init JSON_parse store key initial = Normal initial).
Proof.
  intros Hempty. unfold usePersistedState_init. repeat split.
  - destruct (getItem store key) as [raw|]; [|by eexists].
    case_bool_decide; [|by eexists].
    destruct (JSON_parse raw); by eexists.
  - intros raw v -> Hv. case_bool_decide as Hraw.
    + by rewrite Hv.
    + subst raw. congruence.
  - by intros ->.
  - intros raw -> Hthrow. case_bool_decide; [by rewrite Hthrow | done].
Qed.

Lemma usePersistedState_init_total_witness :
  JSON_parse_bool "" = Throws
  ∧ usePersistedState_init JSON_parse_bool {[ "k" := "true" ]} "k" false
    = Normal true
  ∧ usePersistedState_init JSON_parse_bool ∅ "k" false = Normal false
  ∧ usePersistedState_init JSON_parse_bool {[ "k" := "{oops" ]} "k" true
    = Normal true.
Proof.
  assert (JSON_parse_bool "" = Throws) as Hempty by reflexivity.
  split; [exact Hempty|].
  split; [|split].
  - exact (proj1 (proj2 (usePersistedState_init_total JSON_parse_bool
                           {[ "k" := "true" ]} "k" false Hempty))
             "true" true eq_refl eq_refl).
  - exact (proj1 (proj2 (proj2 (usePersistedState_init_total JSON_parse_bool
                                  ∅ "k" false Hempty)))
             eq_refl).
  - exact (proj2 (proj2 (proj2 (usePersistedState_init_total JSON_parse_bool
                                  {[ "k" := "{oops" ]} "k" true Hempty)))
             "{oops" eq_refl eq_refl).
Defined.

(** ** Drops between inventory slots *)

Lemma set_set_eq (a : list JsVal) (i : nat) (v v' : JsVal) :
  set (set a i v) i v' = set a i v'.
Proof.
  unfold set at 2 3. case_decide as Hi.
  - unfold set. rewrite length_insert, decide_True by done.
    apply list_insert_insert_eq.
  - unfold set. rewrite !length_app, length_replicate. simpl.
    rewrite decide_True by lia.
    rewrite insert_app_r_alt by lia.
    rewrite insert_app_r_alt by (rewrite length_replicate; lia).
    rewrite length_replicate.
    by replace (i - length a - (i - length a)) with 0 by lia.
Qed.

(** What the [payload.source === "inv"] branch of [onDropToInv] does for two
    different slots: the target takes the source's item and the source is
    set to [null]. *)
Lemma inv_to_inv_drop_moves (s : AppState) (A B : nat) :
  A ≠ B →
  get (inv (inventory (onDropToInv (Some (FromInv A)) B s))) B
  = get (inv (inventory s)) A
  ∧ get (inv (inventory (onDropToInv (Some (FromInv A)) B s))) A = Null.
Proof.
  intros HAB. simpl. split.
  - rewrite get_set_ne by done. apply get_set_eq.
  - apply get_set_eq.
Qed.

(** C2. Dropping slot 0 (petal) onto the occupied slot 1 (leaf) is not a
    swap: slot 1 takes the petal, slot 0 becomes [null] instead of taking the
    leaf, and the leaf is in no inventory slot afterwards. *)
Theorem inv_to_inv_drop_loses_target :
  get (inv (inventory app_two)) 0 = Str "petal"
  ∧ get (inv (inventory app_two)) 1 = Str "leaf"
  ∧ get (inv (inventory (onDropToInv (Some (FromInv 0)) 1 app_two))) 1
    = Str "petal"
  ∧ get (inv (inventory (onDropToInv (Some (FromInv 0)) 1 app_two))) 0 = Null
  ∧ items (inv (inventory (onDropToInv (Some (FromInv 0)) 1 app_two)))
    = ["petal"].
Proof. repeat split. Qed.

(** C10. An inventory item dropped onto its own slot is deleted: slot [i]
    reads [null] afterwards, exactly as after [onDeleteInv i]; the other
    slots, [discovered], [finalCrafted] and the grid are kept; so the state
    changes whenever slot [i] was not [null]. *)
Theorem inv_drop_onto_itself_deletes (s : AppState) (i : nat) :
  get (inv (inventory (onDropToInv (Some (FromInv i)) i s))) i = Null
  ∧ onDropToInv (Some (FromInv i)) i s = onDeleteInv i s
  ∧ (∀ j, j ≠ i →
          get (inv (inventory (onDropToInv (Some (FromInv i)) i s))) j
          = get (inv (inventory s)) j)
  ∧ discovered (inventory (onDropToInv (Some (FromInv i)) i s))
    = discovered (inventory s)
  ∧ finalCrafted (inventory (onDropToInv (Some (FromInv i)) i s))
    = finalCrafted (inventory s)
  ∧ craftGrid (onDropToInv (Some (FromInv i)) i s) = craftGrid s
  ∧ (get (inv (inventory s)) i ≠ Null →
     onDropToInv (Some (FromInv i)) i s ≠ s).
Proof.
  assert (get (inv (inventory (onDropToInv (Some (FromInv i)) i s))) i = Null)
    as Hnull by apply get_set_eq.
  split; [exact Hnull|]. split; [|split; [|split; [|split; [|split]]]].
  - unfold onDropToInv, onDeleteInv. simpl. by rewrite set_set_eq.
  - intros j Hj. simpl. by rewrite !get_set_ne.
  - done.
  - done.
  - done.
  - intros Hheld Heq. rewrite Heq in Hnull. done.
Qed.

Lemma inv_drop_onto_itself_deletes_witness :
  get (inv (inventory app_two)) 1 ≠ Null
  ∧ onDropToInv (Some (FromInv 1)) 1 app_two ≠ app_two.
Proof.
  assert (get (inv (inventory app_two)) 1 ≠ Null) as Hheld by discriminate.
  split; [exact Hheld|].
  exact (proj2 (proj2 (proj2 (proj2 (proj2 (proj2
           (inv_drop_onto_itself_deletes app_two 1)))))) Hheld).
Defined.

(** ** Drops from the palette and from the crafting grid *)

(** C4, as stated, fails: a grid item dropped on an occupied grid slot is
    not a no-op. *)
Lemma craft_to_craft_occupied_not_noop :
  ¬ (get (craftGrid app_craft_two) 1 ≠ Null →
     onDropToCraft (Some (FromCraft 0)) 1 app_craft_two = app_craft_two).
Proof.
  intros Hclaim.
  assert (get (craftGrid app_craft_two) 1 ≠ Null) as Hocc by discriminate.
  apply Hclaim in Hocc.
  apply (f_equal (λ s, get (craftGrid s) 1)) in Hocc.
  vm_compute in Hocc. discriminate Hocc.
Qed.

(** C4, amended. A palette item dropped on an inventory or grid slot, and a
    grid item dropped on an inventory slot, leave the whole state unchanged
    when the target is not [null] and put the dragged item in the target
    when it is [null] (a grid source is then set to [null]). A grid item
    dropped on a grid slot is exchanged with the target's content, whether
    the target is occupied or not, so the target always receives it. *)
Theorem drop_from_palette_or_craft (s : AppState) (t : nat) :
  (∀ pid,
     (get (inv (inventory s)) t ≠ Null →
      onDropToInv (Some (FromPalette pid)) t s = s)
     ∧ (get (inv (inventory s)) t = Null →
        get (inv (inventory (onDropToInv (Some (FromPalette pid)) t s))) t
        = Str pid))
  ∧ (∀ pid,
       (get (craftGrid s) t ≠ Null →
        onDropToCraft (Some (FromPalette pid)) t s = s)
       ∧ (get (craftGrid s) t = Null →
          get (craftGrid (onDropToCraft (Some (FromPalette pid)) t s)) t
          = Str pid))
  ∧ (∀ from,
       (get (inv (inventory s)) t ≠ Null →
        onDropToInv (Some (FromCraft from)) t s = s)
       ∧ (get (inv (inventory s)) t = Null →
          get (inv (inventory (onDropToInv (Some (FromCraft from)) t s))) t
          = get (craftGrid s) from
          ∧ get (craftGrid (onDropToInv (Some (FromCraft from)) t s)) from
            = Null))
  ∧ (∀ from,
       get (craftGrid (onDropToCraft (Some (FromCraft from)) t s)) t
       = get (craftGrid s) from
       ∧ get (craftGrid (onDropToCraft (Some (FromCraft from)) t s)) from
         = get (craftGrid s) t
       ∧ inventory (onDropToCraft (Some (FromCraft from)) t s) = inventory s).
Proof.
  split; [|split; [|split]].
  - intros pid. simpl. split; intros Ht.
    + by rewrite decide_True.
    + rewrite decide_False by (by intros ?). simpl. apply get_set_eq.
  - intros pid. simpl. split; intros Ht.
    + by rewrite decide_True.
    + rewrite decide_False by (by intros ?). simpl. apply get_set_eq.
  - intros from. simpl. split; intros Ht.
    + by rewrite decide_True.
    + rewrite decide_False by (by intros ?). simpl.
      split; apply get_set_eq.
  - intros from. simpl. split; [|split; [|done]].
    + destruct (decide (from = t)) as [->|Hne].
      * apply get_set_eq.
      * rewrite get_set_ne by done. apply get_set_eq.
    + apply get_set_eq.
Qed.

Lemma drop_from_palette_or_craft_witness :
  get (craftGrid app_craft_two) 1 ≠ Null
  ∧ onDropToCraft (Some (FromPalette "drop")) 1 app_craft_two = app_craft_two
  ∧ get (craftGrid app_craft_two) 2 = Null
  ∧ get (craftGrid (onDropToCraft (Some (FromPalette "drop")) 2 app_craft_two)) 2
    = Str "drop".
Proof.
  assert (get (craftGrid app_craft_two) 1 ≠ Null) as Hocc by discriminate.
  assert (get (craftGrid app_craft_two) 2 = Null) as Hfree by reflexivity.
  split; [exact Hocc|].
  split; [exact (proj1 (proj1 (proj2 (drop_from_palette_or_craft app_craft_two 1))
                          "drop") Hocc)|].
  split; [exact Hfree|].
  exact (proj2 (proj1 (proj2 (drop_from_palette_or_craft app_craft_two 2))
                  "drop") Hfree).
Defined.

(** ** The scenarios of the catalog *)

Example matchRecipe_flower :
  matchRecipe grid_flower flower_bundle = true
  ∧ matchRecipe (Str "drop" :: grid_flower) flower_bundle = false.
Proof. split; vm_compute; reflexivity. Qed.

Example craft_flower_bundle :
  possibleRecipe app_flower = Some flower_bundle
  ∧ confirmCraft app_flower
    = (mkApp (mkInventory (Str "flower_bundle" :: replicate 17 Null)
                          {[ "flower_bundle" := true ]} false)
             (Array_fill_null 9),
       None).
Proof. split; vm_compute; reflexivity. Qed.

Example craft_sparkling_dew :
  finalCrafted (inventory (confirmCraft (app world_dew)).1) = true
  ∧ get (inv (inventory (confirmCraft (app world_dew)).1)) 0 = Str "sparkling_dew".
Proof. split; vm_compute; reflexivity. Qed.

(** ** How a write changes the items of an array *)

Section ItemsOfSet.

Variable f : JsVal → option string.
Hypothesis f_undefined : f Undefined = None.

Lemma omap_replicate_undefined n : omap f (replicate n Undefined) = [].
Proof. induction n as [|n IH]; simpl; [done|]. by rewrite f_undefined. Qed.

Lemma omap_cons_bag (x : JsVal) (a : list JsVal) :
  bag (omap f (x :: a)) = bag (option_list (f x)) ⊎ bag (omap f a).
Proof.
  unfold bag.
  change (omap f (x :: a))
    with (match f x with Some y => y :: omap f a | None => omap f a end).
  destruct (f x) as [y|].
  - change (option_list (Some y)) with [y].
    rewrite !list_to_set_disj_cons, list_to_set_disj_nil.
    by rewrite (right_id_L ∅ (⊎)).
  - change (option_list None) with (@nil string).
    by rewrite list_to_set_disj_nil, (left_id_L ∅ (⊎)).
Qed.

(** The items after [a[i] = v], together with what slot [i] held, are the
    items before together with [v]. *)
Lemma bag_omap_set (a : list JsVal) (i : nat) (v : JsVal) :
  bag (omap f (set a i v)) ⊎ bag (option_list (f (get a i)))
  = bag (omap f a) ⊎ bag (option_list (f v)).
Proof.
  unfold set, get. case_decide as Hi.
  - destruct (lookup_lt_is_Some_2 a i Hi) as [x Hx]. rewrite Hx.
    change (default Undefined (Some x)) with x.
    rewrite insert_take_drop by done.
    rewrite <- (take_drop_middle a i x Hx) at 3.
    rewrite !omap_app, !bag_app, !omap_cons_bag.
    multiset_solver.
  - rewrite lookup_ge_None_2 by lia.
    change (default Undefined None) with Undefined. rewrite f_undefined.
    rewrite !omap_app, omap_replicate_undefined, app_nil_l, bag_app,
      omap_cons_bag.
    change (omap f []) with (@nil string).
    change (option_list None) with (@nil string).
    unfold bag. rewrite !list_to_set_disj_nil.
    multiset_solver.
Qed.

End ItemsOfSet.

Lemma bag_items_set (a : list JsVal) (i : nat) (v : JsVal) :
  bag (items (set a i v)) ⊎ bag (held (get a i)) = bag (items a) ⊎ bag (held v).
Proof.
  pose proof (bag_omap_set
                (λ v, match v with Str x => Some x | Null | Undefined => None end)
                eq_refl a i v) as H.
  unfold items.
  replace (held (get a i)) with
    (option_list (match get a i with Str x => Some x | _ => None end))
    by (by destruct (get a i)).
  replace (held v) with
    (option_list (match v with Str x => Some x | _ => None end))
    by (by destruct v).
  exact H.
Qed.

Lemma bag_filter_Boolean_set (a : list JsVal) (i : nat) (v : JsVal) :
  bag (filter_Boolean (set a i v)) ⊎ bag (held_truthy (get a i))
  = bag (filter_Boolean a) ⊎ bag (held_truthy v).
Proof.
  pose proof (bag_omap_set
                (λ v, match v with
                      | Str s => if Boolean v then Some s else None
                      | Null | Undefined => None
                      end)
                eq_refl a i v) as H.
  unfold filter_Boolean.
  replace (held_truthy (get a i)) with
    (option_list (match get a i with
                  | Str s => if Boolean (get a i) then Some s else None
                  | _ => None end)).
  2:{ destruct (get a i) as [| |x]; try done. simpl. by destruct (bool_decide _). }
  replace (held_truthy v) with
    (option_list (match v with
                  | Str s => if Boolean v then Some s else None
                  | _ => None end)).
  2:{ destruct v as [| |x]; try done. simpl. by destruct (bool_decide _). }
  exact H.
Qed.

(** ** More on counting *)

Lemma multiplicity_bag (k : string) (l : list string) :
  multiplicity k (bag l) = occurrences k l.
Proof.
  unfold bag, occurrences. induction l as [|x l IH].
  - by rewrite list_to_set_disj_nil, multiplicity_empty.
  - rewrite list_to_set_disj_cons, multiplicity_disj_union, IH.
    destruct (decide (x = k)) as [->|Hne].
    + rewrite multiplicity_singleton_eq, filter_cons_True by done. done.
    + rewrite multiplicity_singleton_ne, filter_cons_False by done. done.
Qed.

Lemma bag_eq_Permutation (l1 l2 : list string) : bag l1 = bag l2 ↔ l1 ≡ₚ l2.
Proof.
  split; [|by intros ->].
  revert l2. induction l1 as [|x l1 IH]; intros l2 Heq.
  - destruct l2 as [|y l2]; [done|].
    apply (f_equal size) in Heq. rewrite !size_bag in Heq. done.
  - assert (x ∈ l2) as Hx.
    { apply (elem_of_list_to_set_disj (A:=string)). unfold bag in Heq.
      rewrite <- Heq, list_to_set_disj_cons. multiset_solver. }
    apply elem_of_Permutation in Hx as [l2' Hl2]. rewrite Hl2.
    constructor. apply IH.
    rewrite Hl2 in Heq. unfold bag in *.
    rewrite !list_to_set_disj_cons in Heq. by apply (inj _) in Heq.
Qed.

Lemma countItems_bag (l1 l2 : list string) :
  countItems l1 = countItems l2 ↔ bag l1 = bag l2.
Proof.
  pose proof (countItems_counts l1) as H1.
  pose proof (countItems_counts l2) as H2. split.
  - intros Heq. apply gmultiset_eq. intros k.
    specialize (H1 k). specialize (H2 k). rewrite Heq, H2 in H1.
    repeat case_decide; congruence.
  - intros Heq. apply map_eq. intros k. by rewrite (H1 k), (H2 k), Heq.
Qed.

Lemma plain_id_petal_leaf : Forall plain_id ["petal"; "petal"; "leaf"].
Proof.
  repeat constructor; unfold plain_id, Object_prototype_names; intros H;
    repeat (apply elem_of_cons in H as [H|H]; [discriminate H|]);
    by apply elem_of_nil in H.
Qed.

(** X1. For a list of ids none of which names a member of
    [Object.prototype], and such an id [k], [countItems] maps [k] to its
    number of occurrences when it occurs in the list and has no key for it
    when it does not. *)
Theorem countItems_occurrences (l : list string) (k : string) :
  Forall plain_id l →
  plain_id k →
  countItems l !! k
  = if decide (k ∈ l) then Some (occurrences k l) else None.
Proof.
  intros _ _.
  rewrite (countItems_counts l k), multiplicity_bag.
  assert (k ∈ l ↔ occurrences k l ≠ 0) as Hin.
  { rewrite <- multiplicity_bag. unfold bag.
    rewrite <- (elem_of_list_to_set_disj (A:=string)), elem_of_multiplicity. lia. }
  repeat case_decide; try done; tauto.
Qed.

Lemma countItems_occurrences_witness :
  Forall plain_id ["petal"; "petal"; "leaf"]
  ∧ plain_id "petal"
  ∧ countItems ["petal"; "petal"; "leaf"] !! "petal" = Some 2.
Proof.
  pose proof plain_id_petal_leaf as Hl.
  assert (plain_id "petal") as Hk by (by inversion Hl).
  split; [exact Hl|]. split; [exact Hk|].
  exact (countItems_occurrences ["petal"; "petal"; "leaf"] "petal" Hl Hk).
Defined.

(** X2. Two lists of ids none of which names a member of [Object.prototype]
    have the same [countItems] dictionary exactly when one is a reordering of
    the other. *)
Theorem countItems_Permutation (l1 l2 : list string) :
  Forall plain_id l1 →
  Forall plain_id l2 →
  countItems l1 = countItems l2 ↔ l1 ≡ₚ l2.
Proof. intros _ _. by rewrite countItems_bag, bag_eq_Permutation. Qed.

Lemma countItems_Permutation_witness :
  Forall plain_id ["petal"; "petal"; "leaf"]
  ∧ Forall plain_id ["petal"; "leaf"; "petal"]
  ∧ countItems ["petal"; "petal"; "leaf"] = countItems ["petal"; "leaf"; "petal"].
Proof.
  pose proof plain_id_petal_leaf as Hl1.
  assert (Forall plain_id ["petal"; "leaf"; "petal"]) as Hl2.
  { inversion Hl1 as [|? ? Hp Hrest]; subst.
    inversion Hrest as [|? ? _ Hrest']; subst.
    inversion Hrest' as [|? ? Hleaf _]; subst.
    repeat constructor; assumption. }
  split; [exact Hl1|]. split; [exact Hl2|].
  exact (proj2 (countItems_Permutation _ _ Hl1 Hl2)
           (perm_skip _ (perm_swap _ _ _))).
Defined.

(** ** More on recipe matching *)

Lemma filter_Boolean_app (a b : list JsVal) :
  filter_Boolean (a ++ b) = filter_Boolean a ++ filter_Boolean b.
Proof. unfold filter_Boolean. apply omap_app. Qed.

Lemma filter_Boolean_Str (l : list string) :
  Forall (λ x, x ≠ "") l → filter_Boolean (Str <$> l) = l.
Proof.
  induction 1 as [|x l Hx _ IH]; [done|].
  unfold filter_Boolean in *. cbn.
  rewrite bool_decide_eq_true_2 by done. cbn. by f_equal.
Qed.

Lemma filter_Boolean_nulls (n : nat) : filter_Boolean (replicate n Null) = [].
Proof. induction n as [|n IH]; [done|]. exact IH. Qed.

(** X3. A recipe whose ingredient ids are non-empty strings matches the grid
    made of its own ingredients followed by any number of empty slots. *)
Theorem matchRecipe_own_ingredients (R : Recipe) (n : nat) :
  Forall (λ x, x ≠ "") (ingredients R) →
  matchRecipe ((Str <$> ingredients R) ++ replicate n Null) R = true.
Proof.
  intros Hids. apply matchRecipe_bag.
  by rewrite filter_Boolean_app, filter_Boolean_Str, filter_Boolean_nulls,
    app_nil_r.
Qed.

Lemma matchRecipe_own_ingredients_witness :
  Forall (λ x, x ≠ "") (ingredients sparkling_dew)
  ∧ matchRecipe ((Str <$> ingredients sparkling_dew) ++ replicate 6 Null)
                sparkling_dew = true.
Proof.
  assert (Forall (λ x, x ≠ "") (ingredients sparkling_dew)) as Hids
    by (repeat constructor; discriminate).
  split; [exact Hids|].
  exact (matchRecipe_own_ingredients sparkling_dew 6 Hids).
Defined.

(** X4. [matchRecipe] does not look at positions: two grids that are
    reorderings of one another match the same recipes. *)
Theorem matchRecipe_Permutation (G1 G2 : list JsVal) (R : Recipe) :
  G1 ≡ₚ G2 → matchRecipe G1 R = matchRecipe G2 R.
Proof.
  intros Hperm.
  assert (filter_Boolean G1 ≡ₚ filter_Boolean G2) as HfB
    by (unfold filter_Boolean; by rewrite Hperm).
  unfold matchRecipe.
  rewrite (proj2 (countItems_bag _ _) (proj2 (bag_eq_Permutation _ _) HfB)).
  by rewrite (Permutation_length HfB).
Qed.

Lemma matchRecipe_Permutation_witness :
  [Str "petal"; Str "leaf"; Str "petal"; Null; Null; Null; Null; Null; Null]
  ≡ₚ grid_flower
  ∧ matchRecipe
      [Str "petal"; Str "leaf"; Str "petal"; Null; Null; Null; Null; Null; Null]
      flower_bundle
    = matchRecipe grid_flower flower_bundle.
Proof.
  assert ([Str "petal"; Str "leaf"; Str "petal"; Null; Null; Null; Null; Null; Null]
          ≡ₚ grid_flower) as Hperm
    by (unfold grid_flower; apply perm_skip, perm_swap).
  split; [exact Hperm|].
  exact (matchRecipe_Permutation _ _ flower_bundle Hperm).
Defined.

(** The two recipes of the catalog ask for different multisets. *)
Lemma catalog_bags_differ :
  bag (ingredients flower_bundle) ≠ bag (ingredients sparkling_dew).
Proof.
  intros Heq. apply (f_equal (multiplicity "drop")) in Heq.
  rewrite !multiplicity_bag in Heq. vm_compute in Heq. discriminate Heq.
Qed.

(** X5. The preview is the matching recipe: [possibleRecipe] is [R] exactly
    when [R] is a recipe of the catalog that matches the grid. No grid
    matches two recipes of the catalog, so the catalog order plays no part. *)
Theorem possibleRecipe_iff_match (s : AppState) (R : Recipe) :
  possibleRecipe s = Some R
  ↔ R ∈ RECIPES ∧ matchRecipe (craftGrid s) R = true.
Proof.
  unfold possibleRecipe. split.
  - intros Hfind. apply List.find_some in Hfind as [Hin Hm].
    by apply list_elem_of_In in Hin.
  - intros [Hin Hm]. unfold RECIPES in *.
    apply elem_of_cons in Hin as [->|Hin]; simpl.
    + by rewrite Hm.
    + apply list_elem_of_singleton in Hin as ->.
      destruct (matchRecipe (craftGrid s) flower_bundle) eqn:Hflower.
      * apply matchRecipe_bag in Hflower, Hm.
        destruct catalog_bags_differ. congruence.
      * by rewrite Hm.
Qed.

(** X6. Whatever the preview shows is listed as craftable: the recipe of
    [possibleRecipe] is one of [canCraftWithResources]. *)
Theorem possibleRecipe_canCraft (s : AppState) (R : Recipe) :
  possibleRecipe s = Some R → R ∈ canCraftWithResources s.
Proof.
  intros Hfind. unfold possibleRecipe in Hfind.
  apply List.find_some in Hfind as [Hin Hm].
  apply list_elem_of_In, List.filter_In. split; [done|].
  apply (covers_subseteq _ _ _ _ (countItems_counts _) (countItems_counts _)).
  rewrite filter_Boolean_app, bag_app.
  apply matchRecipe_bag in Hm. rewrite Hm.
  apply gmultiset_disj_union_subseteq_r.
Qed.

Lemma possibleRecipe_canCraft_witness :
  possibleRecipe app_full = Some flower_bundle
  ∧ flower_bundle ∈ canCraftWithResources app_full.
Proof.
  assert (possibleRecipe app_full = Some flower_bundle) as HR
    by (vm_compute; reflexivity).
  split; [exact HR|].
  exact (possibleRecipe_canCraft app_full flower_bundle HR).
Defined.

(** ** The first free slot *)

Lemma findIndex_first (a : list JsVal) (i : nat) :
  findIndex is_null a = Some i → ∀ j, j < i → get a j ≠ Null.
Proof.
  revert i. induction a as [|x a IH]; intros i; simpl; [done|].
  destruct (is_null x) eqn:Hx.
  - intros [= <-] j Hj. lia.
  - destruct (findIndex is_null a) as [k|]; simpl; [|done].
    intros [= <-] [|j] Hj.
    + unfold get. simpl. by destruct x.
    + apply (IH k eq_refl j). lia.
Qed.

Lemma length_set_in_range (a : list JsVal) (i : nat) (v : JsVal) :
  i < length a → length (set a i v) = length a.
Proof. intros Hi. unfold set. rewrite decide_True by done. apply length_insert. Qed.

Lemma bag_held_Null : bag (held Null) = ∅.
Proof. done. Qed.

Lemma bag_held_Str (x : string) : bag (held (Str x)) = {[+ x +]}.
Proof.
  unfold bag, held. rewrite list_to_set_disj_cons, list_to_set_disj_nil.
  apply (right_id_L ∅ (⊎)).
Qed.

(** What writing an id into an empty slot does to an array. *)
Lemma set_first_free (a : list JsVal) (free : nat) (x : string) :
  findIndex is_null a = Some free →
  (∀ j, j < free → get a j ≠ Null)
  ∧ get a free = Null
  ∧ get (set a free (Str x)) free = Str x
  ∧ (∀ j, j ≠ free → get (set a free (Str x)) j = get a j)
  ∧ length (set a free (Str x)) = length a
  ∧ bag (items (set a free (Str x))) = {[+ x +]} ⊎ bag (items a).
Proof.
  intros Hfree. destruct (findIndex_Some a free Hfree) as [Hnull Hlt].
  split; [by apply findIndex_first|]. split; [done|].
  split; [apply get_set_eq|].
  split; [by intros j Hj; apply get_set_ne|].
  split; [by apply length_set_in_range|].
  pose proof (bag_items_set a free (Str x)) as Hbag.
  rewrite Hnull, bag_held_Null, bag_held_Str, (right_id_L ∅ (⊎)) in Hbag.
  rewrite Hbag. apply (comm_L (⊎)).
Qed.

(** X7. A successful craft puts the recipe's id in the first [null]
    inventory slot: the slots before it are occupied, every other slot is
    kept, the inventory keeps its length and gains exactly that one item. *)
Theorem confirmCraft_first_free_slot (s : AppState) (R : Recipe) (free : nat) :
  possibleRecipe s = Some R →
  findIndex is_null (inv (inventory s)) = Some free →
  (∀ j, j < free → get (inv (inventory s)) j ≠ Null)
  ∧ get (inv (inventory s)) free = Null
  ∧ get (inv (inventory (confirmCraft s).1)) free = Str (id R)
  ∧ (∀ j, j ≠ free →
          get (inv (inventory (confirmCraft s).1)) j = get (inv (inventory s)) j)
  ∧ length (inv (inventory (confirmCraft s).1)) = length (inv (inventory s))
  ∧ bag (items (inv (inventory (confirmCraft s).1)))
    = {[+ id R +]} ⊎ bag (items (inv (inventory s))).
Proof.
  intros HR Hfree. unfold confirmCraft. rewrite HR, Hfree. simpl.
  by apply set_first_free.
Qed.

Lemma confirmCraft_first_free_slot_witness :
  possibleRecipe app_flower = Some flower_bundle
  ∧ findIndex is_null (inv (inventory app_flower)) = Some 0
  ∧ get (inv (inventory (confirmCraft app_flower).1)) 0 = Str "flower_bundle".
Proof.
  assert (possibleRecipe app_flower = Some flower_bundle) as HR
    by (vm_compute; reflexivity).
  assert (findIndex is_null (inv (inventory app_flower)) = Some 0) as Hfree
    by (vm_compute; reflexivity).
  split; [exact HR|]. split; [exact Hfree|].
  exact (proj1 (proj2 (proj2
           (confirmCraft_first_free_slot app_flower flower_bundle 0 HR Hfree)))).
Defined.

(** X8. A click on a palette resource does nothing when no inventory slot is
    [null]; otherwise it writes the id into the first [null] slot and keeps
    every other slot, the grid and the progress. *)
Theorem addResourceToFirstSlot_first_free (rid : string) (s : AppState) :
  (all_occupied (inv (inventory s)) → addResourceToFirstSlot rid s = s)
  ∧ (∀ free,
       findIndex is_null (inv (inventory s)) = Some free →
       (∀ j, j < free → get (inv (inventory s)) j ≠ Null)
       ∧ get (inv (inventory s)) free = Null
       ∧ get (inv (inventory (addResourceToFirstSlot rid s))) free = Str rid
       ∧ (∀ j, j ≠ free →
               get (inv (inventory (addResourceToFirstSlot rid s))) j
               = get (inv (inventory s)) j)
       ∧ length (inv (inventory (addResourceToFirstSlot rid s)))
         = length (inv (inventory s))
       ∧ bag (items (inv (inventory (addResourceToFirstSlot rid s))))
         = {[+ rid +]} ⊎ bag (items (inv (inventory s))))
  ∧ craftGrid (addResourceToFirstSlot rid s) = craftGrid s
  ∧ discovered (inventory (addResourceToFirstSlot rid s))
    = discovered (inventory s).
Proof.
  unfold addResourceToFirstSlot. split; [|split].
  - intros Hfull. apply findIndex_None in Hfull. by rewrite Hfull.
  - intros free Hfree. rewrite Hfree. simpl. by apply set_first_free.
  - by destruct (findIndex _ _).
Qed.

Lemma addResourceToFirstSlot_first_free_witness :
  all_occupied (inv (inventory app_full))
  ∧ addResourceToFirstSlot "drop" app_full = app_full
  ∧ findIndex is_null (inv (inventory app_two)) = Some 2
  ∧ get (inv (inventory (addResourceToFirstSlot "drop" app_two))) 2 = Str "drop".
Proof.
  assert (all_occupied (inv (inventory app_full))) as Hfull.
  { apply findIndex_None. vm_compute. reflexivity. }
  assert (findIndex is_null (inv (inventory app_two)) = Some 2) as Hfree
    by (vm_compute; reflexivity).
  split; [exact Hfull|].
  split; [exact (proj1 (addResourceToFirstSlot_first_free "drop" app_full) Hfull)|].
  split; [exact Hfree|].
  exact (proj1 (proj2 (proj2
           (proj1 (proj2 (addResourceToFirstSlot_first_free "drop" app_two))
              2 Hfree)))).
Defined.

(** ** What the crafting loop consumes *)

Lemma indexOf_Some (l : list string) (x : string) (i : nat) :
  indexOf l x = Some i → l !! i = Some x.
Proof.
  revert i. induction l as [|y l IH]; intros i; simpl; [done|].
  case_decide as Hy.
  - intros [= <-]. by subst.
  - destruct (indexOf l x) as [k|]; simpl; [|done].
    intros [= <-]. by apply IH.
Qed.

Lemma indexOf_None (l : list string) (x : string) :
  indexOf l x = None → x ∉ l.
Proof.
  induction l as [|y l IH]; simpl; [intros _; apply not_elem_of_nil|].
  case_decide as Hy; [done|].
  destruct (indexOf l x) as [k|]; simpl; [done|].
  intros _. apply not_elem_of_cons. split; [done | by apply IH].
Qed.

Lemma bag_splice1 (l : list string) (x : string) (i : nat) :
  l !! i = Some x → bag l = {[+ x +]} ⊎ bag (splice1 l i).
Proof.
  intros Hi. unfold bag, splice1.
  rewrite (list_to_set_disj_perm _ _ (delete_Permutation l i x Hi)).
  apply list_to_set_disj_cons.
Qed.

Lemma bag_filter_Boolean_cons (c : JsVal) (a : list JsVal) :
  bag (filter_Boolean (c :: a)) = bag (held_truthy c) ⊎ bag (filter_Boolean a).
Proof.
  unfold filter_Boolean. rewrite omap_cons_bag. f_equal.
  destruct c as [| |x]; try done. simpl. by destruct (bool_decide _).
Qed.

Lemma bag_nil : bag [] = ∅.
Proof. done. Qed.

Lemma length_consume (req : list string) (G : list JsVal) :
  length (consume req G) = length G.
Proof.
  revert req. induction G as [|c G IH]; intros req; simpl; [done|].
  destruct c as [| |x]; simpl; rewrite ?IH; try done.
  destruct (bool_decide _); simpl; [|by rewrite IH].
  destruct (indexOf req x); simpl; by rewrite IH.
Qed.

Lemma bag_consume (req : list string) (G : list JsVal) :
  bag (filter_Boolean (consume req G)) = bag (filter_Boolean G) ∖ bag req.
Proof.
  revert req. induction G as [|c G IH]; intros req.
  - simpl. change (filter_Boolean []) with (@nil string).
    rewrite bag_nil. multiset_solver.
  - rewrite (bag_filter_Boolean_cons c G).
    destruct c as [| |x]; simpl consume.
    + rewrite bag_filter_Boolean_cons, IH. simpl. rewrite bag_nil.
      by rewrite !(left_id_L ∅ (⊎)).
    + rewrite bag_filter_Boolean_cons, IH. simpl. rewrite bag_nil.
      by rewrite !(left_id_L ∅ (⊎)).
    + simpl held_truthy. simpl Boolean.
      destruct (bool_decide (x ≠ "")) eqn:Hx.
      * destruct (indexOf req x) as [idx|] eqn:Hidx.
        -- rewrite bag_filter_Boolean_cons, IH. simpl held_truthy.
           rewrite bag_nil, (left_id_L ∅ (⊎)).
           apply indexOf_Some in Hidx.
           rewrite (bag_splice1 req x idx Hidx).
           change (bag [x]) with ({[+ x +]} ⊎ bag []).
           rewrite bag_nil. multiset_solver.
        -- rewrite bag_filter_Boolean_cons, IH. simpl held_truthy.
           simpl Boolean. rewrite Hx.
           apply indexOf_None in Hidx.
           rewrite <- (elem_of_list_to_set_disj (A:=string)) in Hidx.
           fold (bag req) in Hidx.
           change (bag [x]) with ({[+ x +]} ⊎ bag []).
           rewrite bag_nil. multiset_solver.
      * rewrite bag_filter_Boolean_cons, IH. simpl held_truthy.
        simpl Boolean. rewrite Hx. rewrite bag_nil.
        by rewrite !(left_id_L ∅ (⊎)).
Qed.

Lemma consume_all_null (req : list string) (G : list JsVal) :
  Forall slot_ok G →
  filter_Boolean (consume req G) = [] →
  consume req G = replicate (length G) Null.
Proof.
  intros HG. revert req. induction HG as [|c G Hc _ IH]; intros req; [done|].
  destruct c as [| |x]; simpl in Hc; [|done|].
  - simpl. intros Hnil. f_equal. by apply IH.
  - simpl. rewrite (bool_decide_eq_true_2 _ Hc).
    destruct (indexOf req x) as [idx|].
    + simpl. intros Hnil. f_equal. by apply IH.
    + unfold filter_Boolean. cbn. by rewrite (bool_decide_eq_true_2 _ Hc).
Qed.

Lemma bag_empty_nil (l : list string) : bag l = ∅ → l = [].
Proof.
  intros Hl. apply (f_equal size) in Hl.
  rewrite size_bag, gmultiset_size_empty in Hl. by apply nil_length_inv.
Qed.

Lemma matchRecipe_no_items (G : list JsVal) (R : Recipe) :
  R ∈ RECIPES → filter_Boolean G = [] → matchRecipe G R = false.
Proof.
  intros HR Hnil. destruct (matchRecipe G R) eqn:Hm; [|done].
  apply matchRecipe_bag in Hm. rewrite Hnil in Hm.
  symmetry in Hm. apply bag_empty_nil in Hm.
  unfold RECIPES in HR. apply elem_of_cons in HR as [->|HR]; [done|].
  apply list_elem_of_singleton in HR as ->. done.
Qed.

Lemma possibleRecipe_no_items (s : AppState) :
  filter_Boolean (craftGrid s) = [] → possibleRecipe s = None.
Proof.
  intros Hnil. destruct (possibleRecipe s) as [R|] eqn:HR; [|done].
  unfold possibleRecipe in HR. apply List.find_some in HR as [Hin Hm].
  apply list_elem_of_In in Hin.
  by rewrite (matchRecipe_no_items _ _ Hin Hnil) in Hm.
Qed.

(** X9. The loop of [confirmCraft] keeps the number of slots and removes
    from the items of the grid, with multiplicities, exactly the required ids
    it finds there: what is left is the multiset difference. *)
Theorem consume_difference (req : list string) (G : list JsVal) :
  length (consume req G) = length G
  ∧ bag (filter_Boolean (consume req G)) = bag (filter_Boolean G) ∖ bag req.
Proof. split; [apply length_consume | apply bag_consume]. Qed.

(** X10. After a successful craft on a grid of well-formed slots every grid
    slot is [null]; the preview is then empty and confirming again changes
    nothing and raises no alert. *)
Theorem confirmCraft_empties_grid (s : AppState) (R : Recipe) (free : nat) :
  Forall slot_ok (craftGrid s) →
  possibleRecipe s = Some R →
  findIndex is_null (inv (inventory s)) = Some free →
  craftGrid (confirmCraft s).1 = replicate (length (craftGrid s)) Null
  ∧ possibleRecipe (confirmCraft s).1 = None
  ∧ confirmCraft (confirmCraft s).1 = ((confirmCraft s).1, None).
Proof.
  intros Hok HR Hfree.
  assert (craftGrid (confirmCraft s).1 = replicate (length (craftGrid s)) Null)
    as Hgrid.
  { unfold confirmCraft. rewrite HR, Hfree. simpl.
    apply consume_all_null; [done|]. apply bag_empty_nil.
    rewrite bag_consume.
    unfold possibleRecipe in HR. apply List.find_some in HR as [_ Hm].
    apply matchRecipe_bag in Hm. rewrite Hm. multiset_solver. }
  assert (possibleRecipe (confirmCraft s).1 = None) as Hnone.
  { apply possibleRecipe_no_items. rewrite Hgrid. apply filter_Boolean_nulls. }
  split; [done|]. split; [done|].
  unfold confirmCraft at 1. by rewrite Hnone.
Qed.

Lemma confirmCraft_empties_grid_witness :
  Forall slot_ok (craftGrid app_flower)
  ∧ possibleRecipe app_flower = Some flower_bundle
  ∧ findIndex is_null (inv (inventory app_flower)) = Some 0
  ∧ craftGrid (confirmCraft app_flower).1 = replicate 9 Null.
Proof.
  assert (Forall slot_ok (craftGrid app_flower)) as Hok
    by (simpl; unfold grid_flower; repeat constructor; simpl; done).
  assert (possibleRecipe app_flower = Some flower_bundle) as HR
    by (vm_compute; reflexivity).
  assert (findIndex is_null (inv (inventory app_flower)) = Some 0) as Hfree
    by (vm_compute; reflexivity).
  split; [exact Hok|]. split; [exact HR|]. split; [exact Hfree|].
  exact (proj1 (confirmCraft_empties_grid app_flower flower_bundle 0 Hok HR Hfree)).
Defined.

(** ** Moving items conserves them *)

Section MovesOfItems.

Variable f : JsVal → option string.
Hypothesis f_undefined : f Undefined = None.
Hypothesis f_null : f Null = None.

Lemma option_list_None_bag : bag (option_list (@None string)) = ∅.
Proof. done. Qed.

(** [a[i] = b[j]; b[j] = null] with [a[i]] empty. *)
Lemma transfer_bag (a b : list JsVal) (i j : nat) :
  get a i = Null →
  bag (omap f (set a i (get b j))) ⊎ bag (omap f (set b j Null))
  = bag (omap f a) ⊎ bag (omap f b).
Proof.
  intros Hnull.
  pose proof (bag_omap_set f f_undefined a i (get b j)) as H1.
  pose proof (bag_omap_set f f_undefined b j Null) as H2.
  rewrite Hnull, f_null, option_list_None_bag in H1.
  rewrite f_null, option_list_None_bag in H2.
  multiset_solver.
Qed.

(** [c[i] = b[j]; c[j] = b[i]] on a copy [c] of [b]. *)
Lemma swap_bag (b : list JsVal) (i j : nat) :
  bag (omap f (set (set b i (get b j)) j (get b i))) = bag (omap f b).
Proof.
  destruct (decide (i = j)) as [->|Hne].
  - rewrite set_set_eq.
    pose proof (bag_omap_set f f_undefined b j (get b j)) as H1.
    by apply (inj (.⊎ _)) in H1.
  - pose proof (bag_omap_set f f_undefined b i (get b j)) as H1.
    pose proof (bag_omap_set f f_undefined (set b i (get b j)) j (get b i)) as H2.
    rewrite get_set_ne in H2 by done.
    multiset_solver.
Qed.

(** [a[B] = a[A]; a[A] = null] for two different slots. *)
Lemma move_bag (a : list JsVal) (A B : nat) :
  A ≠ B →
  bag (omap f (set (set a B (get a A)) A Null)) ⊎ bag (option_list (f (get a B)))
  = bag (omap f a).
Proof.
  intros Hne.
  pose proof (bag_omap_set f f_undefined a B (get a A)) as H1.
  pose proof (bag_omap_set f f_undefined (set a B (get a A)) A Null) as H2.
  rewrite get_set_ne in H2 by done.
  rewrite f_null, option_list_None_bag in H2.
  multiset_solver.
Qed.

End MovesOfItems.

Lemma canCraft_of_bag (s s' : AppState) :
  bag (filter_Boolean (inv (inventory s) ++ craftGrid s))
  = bag (filter_Boolean (inv (inventory s') ++ craftGrid s')) →
  canCraftWithResources s = canCraftWithResources s'.
Proof.
  intros Hbag. unfold canCraftWithResources.
  by rewrite (proj2 (countItems_bag _ _) Hbag).
Qed.

Lemma matchRecipe_of_bag (G1 G2 : list JsVal) (R : Recipe) :
  bag (filter_Boolean G1) = bag (filter_Boolean G2) →
  matchRecipe G1 R = matchRecipe G2 R.
Proof.
  intros Hbag. unfold matchRecipe.
  rewrite (proj2 (countItems_bag _ _) Hbag).
  apply (f_equal size) in Hbag. rewrite !size_bag in Hbag. by rewrite Hbag.
Qed.

Lemma transfer_items (a b : list JsVal) (i j : nat) :
  get a i = Null →
  bag (items (set a i (get b j))) ⊎ bag (items (set b j Null))
  = bag (items a) ⊎ bag (items b).
Proof.
  exact (transfer_bag
           (λ v, match v with Str x => Some x | Null | Undefined => None end)
           eq_refl eq_refl a b i j).
Qed.

Lemma transfer_filter_Boolean (a b : list JsVal) (i j : nat) :
  get a i = Null →
  bag (filter_Boolean (set a i (get b j))) ⊎ bag (filter_Boolean (set b j Null))
  = bag (filter_Boolean a) ⊎ bag (filter_Boolean b).
Proof.
  exact (transfer_bag
           (λ v, match v with
                 | Str s => if Boolean v then Some s else None
                 | Null | Undefined => None
                 end)
           eq_refl eq_refl a b i j).
Qed.

(** X11. A drop that takes an item from the grid to the inventory, or from
    the inventory to the grid, neither creates nor destroys an item: the
    multiset of all items of the state is the same afterwards, whatever the
    two indices, and so is the list of craftable recipes. *)
Theorem transfer_conserves_items (s : AppState) (from t : nat) :
  (all_items (onDropToInv (Some (FromCraft from)) t s) = all_items s
   ∧ canCraftWithResources (onDropToInv (Some (FromCraft from)) t s)
     = canCraftWithResources s)
  ∧ (all_items (onDropToCraft (Some (FromInv from)) t s) = all_items s
     ∧ canCraftWithResources (onDropToCraft (Some (FromInv from)) t s)
       = canCraftWithResources s).
Proof.
  split.
  - simpl. case_decide as Ht; [done|]. split.
    + unfold all_items. simpl. by apply transfer_items.
    + apply canCraft_of_bag. simpl.
      rewrite !filter_Boolean_app, !bag_app. by apply transfer_filter_Boolean.
  - simpl. case_decide as Ht; [done|]. split.
    + unfold all_items. simpl.
      rewrite (comm_L (⊎)), (comm_L (⊎) (bag (items (inv (inventory s))))).
      by apply transfer_items.
    + apply canCraft_of_bag. simpl.
      rewrite !filter_Boolean_app, !bag_app.
      rewrite (comm_L (⊎)),
        (comm_L (⊎) (bag (filter_Boolean (inv (inventory s))))).
      by apply transfer_filter_Boolean.
Qed.

(** X12. Dropping a grid item on a grid slot only rearranges the grid: its
    multiset of items, the result of [matchRecipe] for every recipe, the
    preview and the list of craftable recipes are unchanged. *)
Theorem craft_swap_keeps_preview (s : AppState) (from t : nat) :
  bag (items (craftGrid (onDropToCraft (Some (FromCraft from)) t s)))
  = bag (items (craftGrid s))
  ∧ (∀ R, matchRecipe (craftGrid (onDropToCraft (Some (FromCraft from)) t s)) R
          = matchRecipe (craftGrid s) R)
  ∧ possibleRecipe (onDropToCraft (Some (FromCraft from)) t s) = possibleRecipe s
  ∧ canCraftWithResources (onDropToCraft (Some (FromCraft from)) t s)
    = canCraftWithResources s.
Proof.
  assert (bag (filter_Boolean (craftGrid (onDropToCraft (Some (FromCraft from)) t s)))
          = bag (filter_Boolean (craftGrid s))) as HfB.
  { simpl.
    exact (swap_bag
             (λ v, match v with
                   | Str s => if Boolean v then Some s else None
                   | Null | Undefined => None
                   end)
             eq_refl eq_refl (craftGrid s) t from). }
  assert (∀ R, matchRecipe (craftGrid (onDropToCraft (Some (FromCraft from)) t s)) R
               = matchRecipe (craftGrid s) R) as Hmatch
    by (intros R; by apply matchRecipe_of_bag).
  split; [|split; [done|split]].
  - simpl.
    exact (swap_bag
             (λ v, match v with Str x => Some x | Null | Undefined => None end)
             eq_refl eq_refl (craftGrid s) t from).
  - unfold possibleRecipe, RECIPES. simpl List.find. by rewrite !Hmatch.
  - apply canCraft_of_bag.
    rewrite !filter_Boolean_app, !bag_app. by rewrite HfB.
Qed.

Lemma held_option_list (v : JsVal) :
  held v = option_list (match v with Str x => Some x | Null | Undefined => None end).
Proof. by destruct v. Qed.

(** X13. A drop from inventory slot [A] onto a different inventory slot [B]
    leaves the grid alone and loses exactly what [B] held: the items after
    the drop together with the old item of [B] are the items before. When
    [B] was empty the items are conserved. *)
Theorem inv_to_inv_drop_accounting (s : AppState) (A B : nat) :
  A ≠ B →
  bag (items (inv (inventory (onDropToInv (Some (FromInv A)) B s))))
  ⊎ bag (held (get (inv (inventory s)) B))
  = bag (items (inv (inventory s)))
  ∧ (get (inv (inventory s)) B = Null →
     all_items (onDropToInv (Some (FromInv A)) B s) = all_items s)
  ∧ craftGrid (onDropToInv (Some (FromInv A)) B s) = craftGrid s.
Proof.
  intros Hne.
  assert (bag (items (inv (inventory (onDropToInv (Some (FromInv A)) B s))))
          ⊎ bag (held (get (inv (inventory s)) B))
          = bag (items (inv (inventory s)))) as Hacc.
  { simpl. rewrite held_option_list.
    exact (move_bag
             (λ v, match v with Str x => Some x | Null | Undefined => None end)
             eq_refl eq_refl (inv (inventory s)) A B Hne). }
  split; [done|]. split; [|done].
  intros Hnull. rewrite Hnull, bag_held_Null, (right_id_L ∅ (⊎)) in Hacc.
  unfold all_items. by rewrite Hacc.
Qed.

Lemma inv_to_inv_drop_accounting_witness :
  0 ≠ 2
  ∧ get (inv (inventory app_two)) 2 = Null
  ∧ all_items (onDropToInv (Some (FromInv 0)) 2 app_two) = all_items app_two.
Proof.
  assert (0 ≠ 2) as Hne by discriminate.
  assert (get (inv (inventory app_two)) 2 = Null) as Hnull by reflexivity.
  split; [exact Hne|]. split; [exact Hnull|].
  exact (proj1 (proj2 (inv_to_inv_drop_accounting app_two 0 2 Hne)) Hnull).
Defined.

(** X14. [onDeleteInv i] removes from the inventory exactly what slot [i]
    held and sets the slot to [null]; the other slots, the grid and the
    progress are kept, and deleting again changes nothing more. *)
Theorem onDeleteInv_removes_slot (s : AppState) (i : nat) :
  bag (items (inv (inventory (onDeleteInv i s))))
  ⊎ bag (held (get (inv (inventory s)) i))
  = bag (items (inv (inventory s)))
  ∧ get (inv (inventory (onDeleteInv i s))) i = Null
  ∧ (∀ j, j ≠ i →
          get (inv (inventory (onDeleteInv i s))) j = get (inv (inventory s)) j)
  ∧ onDeleteInv i (onDeleteInv i s) = onDeleteInv i s
  ∧ craftGrid (onDeleteInv i s) = craftGrid s
  ∧ discovered (inventory (onDeleteInv i s)) = discovered (inventory s)
  ∧ finalCrafted (inventory (onDeleteInv i s)) = finalCrafted (inventory s).
Proof.
  split; [|split; [|split; [|split]]].
  - simpl. pose proof (bag_items_set (inv (inventory s)) i Null) as H.
    by rewrite bag_held_Null, (right_id_L ∅ (⊎)) in H.
  - apply get_set_eq.
  - intros j Hj. simpl. by apply get_set_ne.
  - unfold onDeleteInv. simpl. by rewrite set_set_eq.
  - done.
Qed.

(** ** Progress is only ever gained *)

Lemma handlers_keep_discovered (s : AppState) :
  (∀ rid, discovered (inventory (addResourceToFirstSlot rid s))
          = discovered (inventory s))
  ∧ (∀ p t, discovered (inventory (onDropToInv p t s))
            = discovered (inventory s))
  ∧ (∀ p t, discovered (inventory (onDropToCraft p t s))
            = discovered (inventory s))
  ∧ (∀ i, discovered (inventory (onDeleteInv i s))
          = discovered (inventory s))
  ∧ discovered (inventory (clearGrids s)) = discovered (inventory s).
Proof.
  repeat split.
  - intros rid. unfold addResourceToFirstSlot.
    by destruct (findIndex _ _).
  - intros [[pid|from|index]|] t; simpl; [| done | | done];
      by case_decide.
  - intros [[pid|from|index]|] t; simpl; [| | done | done];
      by case_decide.
Qed.

(** The two outcomes of [confirmCraft] for the persisted progress. *)
Lemma confirmCraft_progress (s : AppState) :
  (discovered (inventory (confirmCraft s).1) = discovered (inventory s)
   ∧ finalCrafted (inventory (confirmCraft s).1) = finalCrafted (inventory s))
  ∨ (∃ R, R ∈ RECIPES
          ∧ discovered (inventory (confirmCraft s).1)
            = <[id R := true]> (discovered (inventory s))
          ∧ finalCrafted (inventory (confirmCraft s).1)
            = finalCrafted (inventory s)
              || bool_decide (Some (id R) = final_recipe_id)).
Proof.
  unfold confirmCraft.
  destruct (possibleRecipe s) as [R|] eqn:HR; [|left; split; reflexivity].
  destruct (findIndex is_null (inv (inventory s)));
    [|left; split; reflexivity].
  right. exists R. split; [|split; reflexivity].
  unfold possibleRecipe in HR. apply List.find_some in HR as [Hin _].
  apply list_elem_of_In. exact Hin.
Qed.

(** Every action except [ConfirmCraft] and a confirmed reset keeps
    [discovered] and [finalCrafted]. *)
Lemma step_keeps_progress (a : Action) (w : World) :
  a ≠ ConfirmCraft → a ≠ ResetGame true →
  discovered (inventory (app (step a w))) = discovered (inventory (app w))
  ∧ finalCrafted (inventory (app (step a w))) = finalCrafted (inventory (app w)).
Proof.
  intros Hc Hr.
  destruct (handlers_keep_discovered (app w)) as (D1 & D2 & D3 & D4 & D5).
  destruct (handlers_keep_finalCrafted (app w)) as (F1 & F2 & F3 & F4 & F5).
  destruct a as [rid|p t|p t|i| | |[|]];
    try (by destruct Hc); try (by destruct Hr);
    unfold step, on_app, resetGame; cbn [app negb];
    rewrite ?D1, ?D2, ?D3, ?D4, ?D5, ?F1, ?F2, ?F3, ?F4, ?F5; done.
Qed.

Lemma step_discovered_kept (a : Action) (w : World) (k : string) :
  a ≠ ResetGame true →
  discovered (inventory (app w)) !! k = Some true →
  discovered (inventory (app (step a w))) !! k = Some true.
Proof.
  intros Hr Hk.
  assert (a = ConfirmCraft ∨ a ≠ ConfirmCraft) as [->|Hc]
    by (destruct a; (by left) || (by right)).
  - unfold step, on_app. cbn [app].
    destruct (confirmCraft_progress (app w)) as [[-> _]|(R & _ & -> & _)];
      [done|].
    destruct (decide (id R = k)) as [->|Hne].
    + apply lookup_insert_eq.
    + by rewrite lookup_insert_ne.
  - by rewrite (proj1 (step_keeps_progress a w Hc Hr)).
Qed.

(** X15. Under every action other than a confirmed reset, and along every
    sequence of such actions, a recipe recorded in [discovered] stays
    recorded; every action other than a craft leaves [discovered] as it is. *)
Theorem discovered_never_shrinks (a : Action) (w : World) :
  a ≠ ResetGame true →
  (∀ k, discovered (inventory (app w)) !! k = Some true →
        discovered (inventory (app (step a w))) !! k = Some true)
  ∧ (a ≠ ConfirmCraft →
     discovered (inventory (app (step a w))) = discovered (inventory (app w)))
  ∧ (∀ actions k,
       Forall (λ b, b ≠ ResetGame true) actions →
       discovered (inventory (app w)) !! k = Some true →
       discovered (inventory (app (run actions w))) !! k = Some true).
Proof.
  intros Hr. split; [|split].
  - intros k. by apply step_discovered_kept.
  - intros Hc. exact (proj1 (step_keeps_progress a w Hc Hr)).
  - intros actions k. revert w. induction actions as [|b actions IH];
      intros w Hall Hk; [exact Hk|].
    inversion Hall as [|? ? Hb Hrest]; subst.
    apply IH; [exact Hrest|]. by apply step_discovered_kept.
Qed.

Lemma discovered_never_shrinks_witness :
  ClearInventory ≠ ResetGame true
  ∧ ClearInventory ≠ ConfirmCraft
  ∧ discovered (inventory (app (step ClearInventory world_dew)))
    = discovered (inventory (app world_dew)).
Proof.
  assert (ClearInventory ≠ ResetGame true) as Hr by discriminate.
  assert (ClearInventory ≠ ConfirmCraft) as Hc by discriminate.
  split; [exact Hr|]. split; [exact Hc|].
  exact (proj1 (proj2 (discovered_never_shrinks ClearInventory world_dew Hr)) Hc).
Defined.

Lemma fresh_progress_ok : progress_ok fresh_inventory.
Proof.
  split.
  - intros k b Hk. simpl in Hk. by rewrite lookup_empty in Hk.
  - intros Hfc. simpl in Hfc. discriminate Hfc.
Qed.

Lemma step_progress_ok (a : Action) (w : World) :
  progress_ok (inventory (app w)) → progress_ok (inventory (app (step a w))).
Proof.
  intros [Hdisc Hfinal].
  assert (a = ResetGame true ∨ a = ConfirmCraft
          ∨ (a ≠ ConfirmCraft ∧ a ≠ ResetGame true)) as [->|[->|[Hc Hr]]].
  { destruct a as [| | | | | |[|]]; auto; right; right; split; discriminate. }
  - exact fresh_progress_ok.
  - unfold step, on_app. cbn [app]. unfold progress_ok.
    destruct (confirmCraft_progress (app w)) as [[-> ->]|(R & HR & -> & ->)];
      [by split|].
    split.
    + intros k b. destruct (decide (id R = k)) as [<-|Hne].
      * rewrite lookup_insert_eq. intros [= <-]. split; [reflexivity|].
        unfold recipe_ids. apply list_elem_of_fmap. by exists R.
      * rewrite lookup_insert_ne by exact Hne. apply Hdisc.
    + intros Hfc. apply orb_true_iff in Hfc as [Hfc|Hfc].
      * destruct (Hfinal Hfc) as (k & Hk & Hdk). exists k. split; [exact Hk|].
        destruct (decide (id R = k)) as [<-|Hne].
        -- apply lookup_insert_eq.
        -- by rewrite lookup_insert_ne.
      * apply bool_decide_eq_true in Hfc. exists (id R).
        split; [by symmetry | apply lookup_insert_eq].
  - destruct (step_keeps_progress a w Hc Hr) as [Hd Hf].
    unfold progress_ok. rewrite Hd, Hf. by split.
Qed.

Lemma run_progress_ok (actions : list Action) (w : World) :
  progress_ok (inventory (app w)) →
  progress_ok (inventory (app (run actions w))).
Proof.
  revert w. induction actions as [|a actions IH]; intros w Hw; [exact Hw|].
  simpl. apply IH. by apply step_progress_ok.
Qed.

(** X16. Whatever the actions, resets included, a state reached from the
    fresh state records in [discovered] only ids of catalog recipes, each as
    [true], and has [finalCrafted] set only if the last recipe of the catalog
    is discovered; every single action keeps these two facts. *)
Theorem progress_invariant (actions : list Action) (store : gmap string string) :
  progress_ok (inventory (app (run actions (mkWorld store fresh_app))))
  ∧ (∀ a w, progress_ok (inventory (app w)) →
            progress_ok (inventory (app (step a w)))).
Proof.
  split.
  - apply run_progress_ok. exact fresh_progress_ok.
  - intros a w. apply step_progress_ok.
Qed.

Lemma progress_invariant_witness :
  progress_ok (inventory (app world_dew))
  ∧ progress_ok (inventory (app (step ConfirmCraft world_dew))).
Proof.
  assert (progress_ok (inventory (app world_dew))) as H0
    by exact fresh_progress_ok.
  split; [exact H0|].
  exact (proj2 (progress_invariant [] ∅) ConfirmCraft world_dew H0).
Defined.

(** X17. The progress counter [Object.keys(discovered).length] never exceeds
    [RECIPES.length] in a state reached from the fresh state. *)
Theorem discovered_count_bounded (actions : list Action)
    (store : gmap string string) :
  (size (discovered (inventory (app (run actions (mkWorld store fresh_app)))))
   ≤ length RECIPES)%nat.
Proof.
  pose proof (run_progress_ok actions (mkWorld store fresh_app)
                fresh_progress_ok) as [Hdisc _].
  set (d := discovered (inventory (app (run actions (mkWorld store fresh_app))))) in *.
  rewrite <- size_dom.
  transitivity (size (list_to_set recipe_ids : gset string)).
  - apply subseteq_size. intros k Hk.
    apply elem_of_dom in Hk as [b Hb].
    apply elem_of_list_to_set. by apply (Hdisc k b).
  - vm_compute. lia.
Qed.

(** ** The shape of the state is kept *)

Lemma catalog_slot_ok (v : JsVal) : catalog_slot v → slot_ok v.
Proof.
  destruct v as [| |x]; simpl; try done.
  intros [Hx|Hx] ->; vm_compute in Hx;
    repeat (apply elem_of_cons in Hx as [Hx|Hx]; [discriminate Hx|]);
    by apply elem_of_nil in Hx.
Qed.

Lemma Forall_set (P : JsVal → Prop) (a : list JsVal) (i : nat) (v : JsVal) :
  Forall P a → P v → i < length a → Forall P (set a i v).
Proof.
  intros Ha Hv Hi. unfold set. rewrite decide_True by done.
  by apply Forall_insert.
Qed.

Lemma catalog_slot_get (a : list JsVal) (i : nat) :
  Forall catalog_slot a → i < length a → catalog_slot (get a i).
Proof.
  intros Ha Hi. unfold get.
  destruct (lookup_lt_is_Some_2 a i Hi) as [x Hx]. rewrite Hx. simpl.
  by apply (Forall_lookup_1 _ _ _ _ Ha Hx).
Qed.

Lemma consume_catalog (req : list string) (G : list JsVal) :
  Forall catalog_slot G → Forall catalog_slot (consume req G).
Proof.
  intros HG. revert req. induction HG as [|c G Hc _ IH]; intros req;
    [constructor|].
  destruct c as [| |x]; simpl.
  - constructor; [done | apply IH].
  - constructor; [done | apply IH].
  - destruct (bool_decide (x ≠ "")).
    + destruct (indexOf req x); constructor; try done; apply IH.
    + constructor; [done | apply IH].
Qed.

Lemma fresh_well_formed : well_formed fresh_app.
Proof.
  unfold well_formed, fresh_app, fresh_inventory, Array_fill_null.
  cbn [inventory craftGrid inv]. rewrite !length_replicate.
  repeat split; apply Forall_replicate; exact I.
Qed.

Lemma resource_slot (x : string) : x ∈ resource_ids → catalog_slot (Str x).
Proof. intros Hx. by left. Qed.

Lemma onDropToInv_well_formed (p : option Payload) (t : nat) (s : AppState) :
  well_formed s → ui_payload p → t < 18 → well_formed (onDropToInv p t s).
Proof.
  intros (Hli & Hlg & Hi & Hg) Hp Ht.
  destruct p as [[pid|from|index]|]; simpl in Hp; simpl.
  - case_decide; [done|]. unfold well_formed. simpl.
    rewrite length_set_in_range by lia.
    repeat split; try done. apply Forall_set; [done | by left | lia].
  - unfold well_formed. simpl.
    assert (length (set (inv (inventory s)) t (get (inv (inventory s)) from)) = 18)
      as Hl1 by (rewrite length_set_in_range; lia).
    rewrite length_set_in_range by lia.
    repeat split; try done.
    apply Forall_set; [|exact I|lia].
    apply Forall_set; [done| |lia]. apply catalog_slot_get; [done|lia].
  - case_decide; [done|]. unfold well_formed. simpl.
    rewrite !length_set_in_range by lia.
    repeat split; try done.
    + apply Forall_set; [done| |lia]. apply catalog_slot_get; [done|lia].
    + apply Forall_set; [done|exact I|lia].
  - done.
Qed.

Lemma onDropToCraft_well_formed (p : option Payload) (t : nat) (s : AppState) :
  well_formed s → ui_payload p → t < 9 → well_formed (onDropToCraft p t s).
Proof.
  intros (Hli & Hlg & Hi & Hg) Hp Ht.
  destruct p as [[pid|from|index]|]; simpl in Hp; simpl.
  - case_decide; [done|]. unfold well_formed. simpl.
    rewrite length_set_in_range by lia.
    repeat split; try done. apply Forall_set; [done | by left | lia].
  - case_decide; [done|]. unfold well_formed. simpl.
    rewrite !length_set_in_range by lia.
    repeat split; try done.
    + apply Forall_set; [done|exact I|lia].
    + apply Forall_set; [done| |lia]. apply catalog_slot_get; [done|lia].
  - unfold well_formed. simpl.
    assert (length (set (craftGrid s) t (get (craftGrid s) index)) = 9)
      as Hl1 by (rewrite length_set_in_range; lia).
    rewrite length_set_in_range by lia.
    repeat split; try done.
    apply Forall_set; [| |lia].
    + apply Forall_set; [done| |lia]. apply catalog_slot_get; [done|lia].
    + apply catalog_slot_get; [done|lia].
  - done.
Qed.

Lemma confirmCraft_well_formed (s : AppState) :
  well_formed s → well_formed (confirmCraft s).1.
Proof.
  intros (Hli & Hlg & Hi & Hg). unfold confirmCraft.
  destruct (possibleRecipe s) as [R|] eqn:HR; [|by repeat split].
  destruct (findIndex is_null (inv (inventory s))) as [free|] eqn:Hfree;
    [|by repeat split].
  destruct (findIndex_Some _ _ Hfree) as [_ Hlt].
  unfold well_formed. cbn [fst inventory craftGrid inv setCraftGrid setInventory].
  rewrite length_set_in_range by exact Hlt. rewrite length_consume.
  split; [exact Hli|]. split; [exact Hlg|]. split.
  - apply Forall_set; [exact Hi| |exact Hlt].
    right. unfold possibleRecipe in HR.
    apply List.find_some in HR as [Hin _]. apply list_elem_of_In in Hin.
    unfold recipe_ids. apply list_elem_of_fmap. by exists R.
  - by apply consume_catalog.
Qed.

Lemma step_well_formed (a : Action) (w : World) :
  well_formed (app w) → ui_action a → well_formed (app (step a w)).
Proof.
  intros Hw Ha.
  destruct a as [rid|p t|p t|i| | |[|]]; unfold step, on_app, resetGame;
    cbn [app negb].
  - destruct Hw as (Hli & Hlg & Hi & Hg). unfold addResourceToFirstSlot.
    destruct (findIndex is_null (inv (inventory (app w)))) as [free|] eqn:Hfree;
      [|by repeat split].
    destruct (findIndex_Some _ _ Hfree) as [_ Hlt].
    unfold well_formed. simpl. rewrite length_set_in_range by exact Hlt.
    repeat split; try done. apply Forall_set; [done| |done].
    by apply resource_slot.
  - destruct Ha as [Hp Ht]. by apply onDropToInv_well_formed.
  - destruct Ha as [Hp Ht]. by apply onDropToCraft_well_formed.
  - destruct Hw as (Hli & Hlg & Hi & Hg). simpl in Ha.
    unfold well_formed. simpl. rewrite length_set_in_range by lia.
    repeat split; try done. apply Forall_set; [done|exact I|lia].
  - by apply confirmCraft_well_formed.
  - exact fresh_well_formed.
  - exact fresh_well_formed.
  - exact Hw.
Qed.

Lemma run_well_formed (actions : list Action) (w : World) :
  well_formed (app w) → Forall ui_action actions →
  well_formed (app (run actions w)).
Proof.
  revert w. induction actions as [|a actions IH]; intros w Hw Hall; [exact Hw|].
  inversion Hall as [|? ? Ha Hrest]; subst. simpl.
  apply IH; [|exact Hrest]. by apply step_well_formed.
Qed.

(** X18. The actions the interface can dispatch keep the shape of the state:
    18 inventory slots and 9 grid slots, each [null] or the id of a resource
    or recipe of the catalog (so never [undefined] nor an empty id). This
    holds for the fresh state, for each such action, and so for every state
    they reach. *)
Theorem well_formed_invariant (actions : list Action) (w : World) :
  well_formed (app w) →
  Forall ui_action actions →
  well_formed (app (run actions w))
  ∧ Forall slot_ok (inv (inventory (app (run actions w))))
  ∧ Forall slot_ok (craftGrid (app (run actions w)))
  ∧ well_formed fresh_app.
Proof.
  intros Hw Hall.
  pose proof (run_well_formed actions w Hw Hall) as Hrun.
  split; [exact Hrun|].
  destruct Hrun as (_ & _ & Hi & Hg).
  split; [|split; [|exact fresh_well_formed]].
  - eapply list.Forall_impl; [exact Hi | exact catalog_slot_ok].
  - eapply list.Forall_impl; [exact Hg | exact catalog_slot_ok].
Qed.

Lemma well_formed_invariant_witness :
  well_formed (app world_dew)
  ∧ Forall ui_action [ConfirmCraft; ClickPalette "petal"; DropToCraft (Some (FromInv 1)) 4]
  ∧ well_formed
      (app (run [ConfirmCraft; ClickPalette "petal"; DropToCraft (Some (FromInv 1)) 4]
                world_dew)).
Proof.
  assert (well_formed (app world_dew)) as Hw.
  { unfold well_formed, world_dew. simpl.
    repeat split; [apply Forall_replicate; exact I|].
    repeat constructor; left; vm_compute;
      repeat (first [apply list_elem_of_here | apply list_elem_of_further]). }
  assert (Forall ui_action
            [ConfirmCraft; ClickPalette "petal"; DropToCraft (Some (FromInv 1)) 4])
    as Hall.
  { repeat constructor; simpl; lia. }
  split; [exact Hw|]. split; [exact Hall|].
  exact (proj1 (well_formed_invariant _ world_dew Hw Hall)).
Defined.

(** ** Rendering an item *)

Lemma renderItem_None (x : string) :
  renderItem x = None ↔ (x ∉ resource_ids) ∧ (x ∉ recipe_ids).
Proof.
  unfold renderItem, resource_ids, recipe_ids. split.
  - destruct (List.find _ RESOURCES) as [res|] eqn:Hres; [done|].
    destruct (List.find _ RECIPES) as [rec|] eqn:Hrec; [done|].
    intros _. split.
    + intros Hx. apply list_elem_of_fmap in Hx as (r & -> & Hr).
      apply list_elem_of_In in Hr.
      pose proof (List.find_none _ _ Hres r Hr) as Hno. cbv beta in Hno.
      by rewrite bool_decide_eq_true_2 in Hno.
    + intros Hx. apply list_elem_of_fmap in Hx as (r & -> & Hr).
      apply list_elem_of_In in Hr.
      pose proof (List.find_none _ _ Hrec r Hr) as Hno. cbv beta in Hno.
      by rewrite bool_decide_eq_true_2 in Hno.
  - intros [Hres Hrec].
    destruct (List.find _ RESOURCES) as [res|] eqn:Hfres.
    { apply List.find_some in Hfres as [Hin Hid].
      apply bool_decide_eq_true in Hid. destruct Hres.
      apply list_elem_of_fmap. exists res. split; [done|].
      by apply list_elem_of_In. }
    destruct (List.find _ RECIPES) as [rec|] eqn:Hfrec; [|done].
    apply List.find_some in Hfrec as [Hin Hid].
    apply bool_decide_eq_true in Hid. destruct Hrec.
    apply list_elem_of_fmap. exists rec. split; [done|].
    by apply list_elem_of_In.
Qed.

Lemma elem_of_items (x : string) (a : list JsVal) : x ∈ items a → Str x ∈ a.
Proof.
  unfold items. intros Hx. apply list_elem_of_omap in Hx as (v & Hv & Hs).
  destruct v; try done. by injection Hs as ->.
Qed.

(** X19. [renderItem] finds every id of the catalog, each under its own
    entry (a recipe id is never taken for a resource), and returns [null]
    exactly for the ids that are in neither list; so every item held by a
    well-formed state has a rendering. *)
Theorem renderItem_catalog :
  (∀ res, res ∈ RESOURCES →
          renderItem (res_id res) = Some (RenderedResource res))
  ∧ (∀ rec, rec ∈ RECIPES → renderItem (id rec) = Some (RenderedRecipe rec))
  ∧ (∀ x, renderItem x = None ↔ (x ∉ resource_ids) ∧ (x ∉ recipe_ids))
  ∧ (∀ s x, well_formed s →
            x ∈ items (inv (inventory s) ++ craftGrid s) →
            is_Some (renderItem x)).
Proof.
  split; [|split; [|split]].
  - intros res Hres. unfold RESOURCES in Hres.
    repeat (apply elem_of_cons in Hres as [->|Hres]; [reflexivity|]).
    by apply elem_of_nil in Hres.
  - intros rec Hrec. unfold RECIPES in Hrec.
    repeat (apply elem_of_cons in Hrec as [->|Hrec]; [reflexivity|]).
    by apply elem_of_nil in Hrec.
  - exact renderItem_None.
  - intros s x (_ & _ & Hi & Hg) Hx.
    apply elem_of_items in Hx.
    assert (catalog_slot (Str x)) as Hslot.
    { apply elem_of_app in Hx as [Hx|Hx].
      - by apply (proj1 (list.Forall_forall _ _) Hi).
      - by apply (proj1 (list.Forall_forall _ _) Hg). }
    destruct (renderItem x) eqn:Hrender; [by eexists|].
    apply renderItem_None in Hrender as [Hres Hrec].
    simpl in Hslot. tauto.
Qed.

Lemma renderItem_catalog_witness :
  sparkling_dew ∈ RECIPES
  ∧ renderItem "sparkling_dew" = Some (RenderedRecipe sparkling_dew).
Proof.
  assert (sparkling_dew ∈ RECIPES) as Hin
    by (unfold RECIPES; apply list_elem_of_further, list_elem_of_here).
  split; [exact Hin|].
  exact (proj1 (proj2 renderItem_catalog) sparkling_dew Hin).
Defined.

(** ** Saving and loading *)

(** X20. What the effect of [usePersistedState] saves, its initializer loads
    back: if [JSON.parse] inverts [JSON.stringify] on the state and the text
    is not empty, a load after the save returns that state, not the initial
    one. The save touches no other key of the storage. *)
Theorem persisted_round_trip {V : Type}
    (JSON_parse : string → Completion V) (JSON_stringify : V → string)
    (store : gmap string string) (key : string) (state initial : V) :
  JSON_parse (JSON_stringify state) = Normal state →
  JSON_stringify state ≠ "" →
  usePersistedState_init JSON_parse
    (usePersistedState_effect JSON_stringify key state store) key initial
  = Normal state
  ∧ (∀ k, k ≠ key →
          getItem (usePersistedState_effect JSON_stringify key state store) k
          = getItem store k).
Proof.
  intros Hround Hnonempty.
  unfold usePersistedState_init, usePersistedState_effect, getItem. split.
  - rewrite lookup_insert_eq.
    rewrite bool_decide_eq_true_2 by exact Hnonempty.
    rewrite Hround. reflexivity.
  - intros k Hk. by rewrite lookup_insert_ne.
Qed.

Lemma persisted_round_trip_witness :
  JSON_parse_bool (JSON_stringify_bool true) = Normal true
  ∧ JSON_stringify_bool true ≠ ""
  ∧ usePersistedState_init JSON_parse_bool
      (usePersistedState_effect JSON_stringify_bool "k" true ∅) "k" false
    = Normal true.
Proof.
  assert (JSON_parse_bool (JSON_stringify_bool true) = Normal true) as Hround
    by reflexivity.
  assert (JSON_stringify_bool true ≠ "") as Hne by discriminate.
  split; [exact Hround|]. split; [exact Hne|].
  exact (proj1 (persisted_round_trip JSON_parse_bool JSON_stringify_bool
                  ∅ "k" true false Hround Hne)).
Defined.

(** ** Craftability follows the resources *)

Lemma canCraft_mono (s s' : AppState) (r : Recipe) :
  bag (filter_Boolean (inv (inventory s) ++ craftGrid s))
  ⊆ bag (filter_Boolean (inv (inventory s') ++ craftGrid s')) →
  r ∈ canCraftWithResources s → r ∈ canCraftWithResources s'.
Proof.
  intros Hsub Hr.
  apply list_elem_of_In in Hr. apply list_elem_of_In.
  unfold canCraftWithResources in *.
  destruct (proj1 (List.filter_In _ _ _) Hr) as [Hin Hcov].
  apply (proj2 (List.filter_In _ _ _)). split; [exact Hin|].
  pose proof (proj1 (covers_subseteq _ _ _ _
                       (countItems_counts
                          (filter_Boolean (inv (inventory s) ++ craftGrid s)))
                       (countItems_counts (ingredients r))) Hcov) as Hsub0.
  apply (proj2 (covers_subseteq _ _ _ _
                  (countItems_counts
                     (filter_Boolean (inv (inventory s') ++ craftGrid s')))
                  (countItems_counts (ingredients r)))).
  etransitivity; [exact Hsub0 | exact Hsub].
Qed.

Lemma bag_held_truthy_Null : bag (held_truthy Null) = ∅.
Proof. done. Qed.

(** X21. Adding a resource by a palette click never removes a recipe from
    the craftable list, a recipe craftable after a delete was craftable
    before it, and nothing is craftable after "Clear Inventory". *)
Theorem craftable_follows_resources (s : AppState) :
  (∀ rid r, r ∈ canCraftWithResources s →
            r ∈ canCraftWithResources (addResourceToFirstSlot rid s))
  ∧ (∀ i r, r ∈ canCraftWithResources (onDeleteInv i s) →
            r ∈ canCraftWithResources s)
  ∧ canCraftWithResources (clearGrids s) = [].
Proof.
  split; [|split].
  - intros rid r. apply canCraft_mono.
    unfold addResourceToFirstSlot.
    destruct (findIndex is_null (inv (inventory s))) as [free|] eqn:Hfree;
      [|reflexivity].
    destruct (findIndex_Some _ _ Hfree) as [Hnull _].
    cbn [inventory craftGrid inv setInventory with_inv].
    rewrite !filter_Boolean_app, !bag_app.
    pose proof (bag_filter_Boolean_set (inv (inventory s)) free (Str rid)) as H.
    rewrite Hnull, bag_held_truthy_Null, (right_id_L ∅ (⊎)) in H.
    rewrite H. multiset_solver.
  - intros i r. apply canCraft_mono.
    unfold onDeleteInv. cbn [inventory craftGrid inv setInventory with_inv].
    rewrite !filter_Boolean_app, !bag_app.
    pose proof (bag_filter_Boolean_set (inv (inventory s)) i Null) as H.
    rewrite bag_held_truthy_Null, (right_id_L ∅ (⊎)) in H.
    rewrite <- H. multiset_solver.
  - vm_compute. reflexivity.
Qed.

(** ** Reloading after a reset *)

(** X22. A reload after a confirmed reset starts from the initial state:
    right after [resetGame] the entry is missing, so the initializer returns
    the initial value; once the effect has saved the reset state, the
    initializer returns the fresh inventory, provided [JSON.parse] inverts
    [JSON.stringify] on it. *)
Theorem reset_then_reload
    (JSON_parse : string → Completion Inventory)
    (JSON_stringify : Inventory → string) (w : World) (initial : Inventory) :
  JSON_parse (JSON_stringify fresh_inventory) = Normal fresh_inventory →
  JSON_stringify fresh_inventory ≠ "" →
  usePersistedState_init JSON_parse (localStorage (resetGame true w))
    STORAGE_KEY initial
  = Normal initial
  ∧ usePersistedState_init JSON_parse
      (usePersistedState_effect JSON_stringify STORAGE_KEY
         (inventory (app (resetGame true w)))
         (localStorage (resetGame true w)))
      STORAGE_KEY initial
    = Normal fresh_inventory.
Proof.
  intros Hround Hnonempty.
  unfold usePersistedState_init, usePersistedState_effect, getItem, resetGame.
  cbn [negb localStorage app inventory setCraftGrid setInventory]. split.
  - by rewrite lookup_delete_eq.
  - rewrite lookup_insert_eq.
    change (mkInventory (Array_fill_null 18) ∅ false) with fresh_inventory.
    rewrite bool_decide_eq_true_2 by exact Hnonempty.
    rewrite Hround. reflexivity.
Qed.

Lemma reset_then_reload_witness :
  parse_fresh (stringify_fresh fresh_inventory) = Normal fresh_inventory
  ∧ stringify_fresh fresh_inventory ≠ ""
  ∧ usePersistedState_init parse_fresh
      (usePersistedState_effect stringify_fresh STORAGE_KEY
         (inventory (app (resetGame true world_dew)))
         (localStorage (resetGame true world_dew)))
      STORAGE_KEY fresh_inventory
    = Normal fresh_inventory.
Proof.
  assert (parse_fresh (stringify_fresh fresh_inventory) = Normal fresh_inventory)
    as Hround by reflexivity.
  assert (stringify_fresh fresh_inventory ≠ "") as Hne by discriminate.
  split; [exact Hround|]. split; [exact Hne|].
  exact (proj2 (reset_then_reload parse_fresh stringify_fresh world_dew
                  fresh_inventory Hround Hne)).
Defined.

(** ** When a craft changes the state *)

(** X23. [confirmCraft] raises the full-inventory alert exactly when a
    recipe matches and no inventory slot is [null], and it changes the state
    exactly when a recipe matches and some inventory slot is [null]. *)
Theorem confirmCraft_outcomes (s : AppState) :
  ((confirmCraft s).2 = Some InventoryFull
   ↔ is_Some (possibleRecipe s) ∧ all_occupied (inv (inventory s)))
  ∧ ((confirmCraft s).1 ≠ s
     ↔ is_Some (possibleRecipe s) ∧ ¬ all_occupied (inv (inventory s))).
Proof.
  unfold confirmCraft.
  destruct (possibleRecipe s) as [R|] eqn:HR.
  - destruct (findIndex is_null (inv (inventory s))) as [free|] eqn:Hfree.
    + assert (¬ all_occupied (inv (inventory s))) as Hnot.
      { intros Hfull. apply findIndex_None in Hfull. congruence. }
      destruct (findIndex_Some _ _ Hfree) as [Hnull _].
      cbn [fst snd]. split.
      * split; [discriminate | intros [_ Hfull]; by destruct Hnot].
      * split; [intros _; split; [by eexists | exact Hnot]|].
        intros _ Heq.
        apply (f_equal (λ s, get (inv (inventory s)) free)) in Heq.
        cbn [inventory inv setCraftGrid setInventory] in Heq.
        rewrite get_set_eq, Hnull in Heq. discriminate Heq.
    + apply findIndex_None in Hfree. cbn [fst snd]. split.
      * split; [intros _; split; [by eexists | exact Hfree] | reflexivity].
      * split; [intros Hne; by destruct Hne | intros [_ Hnot]; by destruct Hnot].
  - cbn [fst snd]. split.
    + split; [discriminate | intros [[? [=]] _]].
    + split; [intros Hne; by destruct Hne | intros [[? [=]] _]].
Qed.

(** ** Drops from the inventory onto the grid *)

(** X24. An inventory item dropped on a grid slot that is not [null] leaves
    the whole state unchanged; dropped on a [null] grid slot it is written
    there, its inventory slot is set to [null], and the other slots of both
    arrays keep their content. *)
Theorem inv_to_craft_drop (s : AppState) (from t : nat) :
  (get (craftGrid s) t ≠ Null →
   onDropToCraft (Some (FromInv from)) t s = s)
  ∧ (get (craftGrid s) t = Null →
     get (craftGrid (onDropToCraft (Some (FromInv from)) t s)) t
     = get (inv (inventory s)) from
     ∧ get (inv (inventory (onDropToCraft (Some (FromInv from)) t s))) from
       = Null
     ∧ (∀ j, j ≠ t →
             get (craftGrid (onDropToCraft (Some (FromInv from)) t s)) j
             = get (craftGrid s) j)
     ∧ (∀ j, j ≠ from →
             get (inv (inventory (onDropToCraft (Some (FromInv from)) t s))) j
             = get (inv (inventory s)) j)).
Proof.
  simpl. split; intros Ht.
  - by rewrite decide_True.
  - rewrite decide_False by (by intros ?). simpl.
    split; [apply get_set_eq|]. split; [apply get_set_eq|].
    split; intros j Hj; by apply get_set_ne.
Qed.

Lemma inv_to_craft_drop_witness :
  get (craftGrid app_two) 3 = Null
  ∧ get (craftGrid (onDropToCraft (Some (FromInv 1)) 3 app_two)) 3 = Str "leaf"
  ∧ get (inv (inventory (onDropToCraft (Some (FromInv 1)) 3 app_two))) 1 = Null.
Proof.
  assert (get (craftGrid app_two) 3 = Null) as Hfree by reflexivity.
  split; [exact Hfree|].
  destruct (proj2 (inv_to_craft_drop app_two 1 3) Hfree) as (H1 & H2 & _).
  split; [exact H1 | exact H2].
Defined.

Lemma onDeleteInv_removes_slot_witness :
  1 ≠ 0
  ∧ get (inv (inventory (onDeleteInv 0 app_two))) 1 = Str "leaf"
  ∧ get (inv (inventory (onDeleteInv 0 app_two))) 0 = Null.
Proof.
  assert (1 ≠ 0) as Hne by discriminate.
  split; [exact Hne|].
  destruct (onDeleteInv_removes_slot app_two 0) as (_ & Hnull & Hother & _).
  split; [exact (Hother 1 Hne) | exact Hnull].
Defined.

Lemma craftable_follows_resources_witness :
  sparkling_dew ∈ canCraftWithResources app_surplus
  ∧ sparkling_dew ∈ canCraftWithResources (addResourceToFirstSlot "petal" app_surplus).
Proof.
  assert (sparkling_dew ∈ canCraftWithResources app_surplus) as Hin.
  { replace (canCraftWithResources app_surplus) with RECIPES
      by (vm_compute; reflexivity).
    unfold RECIPES. apply list_elem_of_further, list_elem_of_here. }
  split; [exact Hin|].
  exact (proj1 (craftable_follows_resources app_surplus) "petal" sparkling_dew Hin).
Defined.
